(** * A shallow embedding of [ipo_gmp_telegram.py] (dailyGMPalert)

    The script scrapes an IPO grey-market-premium table, normalises it
    with pandas, filters it by date and posts an HTML summary.  This file
    embeds the pure pipeline: the field parsers, the column resolver,
    [normalize_df], [filter_relevant], [format_message_html] and the
    decision structure of [main].

    Modelling conventions.
    - A Python [str] is represented by its UTF-8 encoding, a Rocq [string]
      of bytes.  Equality, [in], [replace] and substring search coincide on
      UTF-8 encodings with the code-point operations, so the literals of
      the source (which hold mojibake such as "â‚¹") are kept byte for byte.
      Case mapping, [strip], [\s], [\d] are modelled for ASCII characters
      (the Unicode-only whitespace, digits and letters are outside the model).
    - Python exceptions are values of [exn]; code that may raise returns a
      [result].  A [try]/[except] is a [match] on that result.
    - A [float] is [PFin q] with [q] the exact rational value (no rounding
      to double precision), [PInf] or [PNaN].
    - A table cell is [Some s] (a string) or [None] (pandas' NaN). *)

From Stdlib Require Import String Ascii List ZArith QArith Bool Lia.
From Stdlib Require Import Permutation Sorting.Sorted.
Import ListNotations.

Close Scope Q_scope.
Open Scope nat_scope.
Open Scope bool_scope.

(* ------------------------------------------------------------------ *)
(** ** Exceptions and results *)

Inductive exn := ValueError | AttributeError | KeyError.

Inductive result (A : Type) : Type :=
| Ok (a : A)
| Raise (e : exn).
Arguments Ok {A} a.
Arguments Raise {A} e.

Definition bind {A B} (m : result A) (k : A -> result B) : result B :=
  match m with Ok a => k a | Raise e => Raise e end.

Notation "'let*' x ':=' m 'in' k" := (bind m (fun x => k))
  (at level 200, x name, m at level 100, k at level 200).

Fixpoint mapM {A B} (f : A -> result B) (l : list A) : result (list B) :=
  match l with
  | [] => Ok []
  | x :: l' => let* y := f x in let* ys := mapM f l' in Ok (y :: ys)
  end.

(* ------------------------------------------------------------------ *)
(** ** Byte strings *)

Fixpoint bytes (l : list nat) : string :=
  match l with [] => EmptyString | n :: l' => String (ascii_of_nat n) (bytes l') end.

(** The non-ASCII literals of the source, byte for byte. *)
Definition EM_DASH_MOJ : string := bytes [195;162;226;130;172;226;128;157].   (* "â€”" *)
Definition EN_DASH_MOJ : string := bytes [195;162;226;130;172;226;128;156].   (* "â€“" *)
Definition RUPEE_MOJ : string := bytes [195;162;226;128;154;194;185].         (* "â‚¹" *)
Definition CROSS_MOJ : string := bytes [195;162;197;146].                     (* "âŒ" *)
Definition MEGAPHONE_MOJ : string := bytes [196;159;197;184;226;128;156;194;162].
Definition SOON_MOJ : string := bytes [196;159;197;184;226;128;157;197;147].
Definition CHART_MOJ : string := bytes [196;159;197;184;226;128;156;197;160].
Definition DIAMOND_MOJ : string := bytes [196;159;197;184;226;128;157;194;184].
Definition BULLET_MOJ : string := bytes [195;162;226;130;172;194;162].
Definition MONEY_MOJ : string := bytes [196;159;197;184;226;128;153;194;176].
Definition UPCHART_MOJ : string := bytes [196;159;197;184;226;128;156;203;134].
Definition CALENDAR_MOJ : string := bytes [196;159;197;184;226;128;148;226;128;156].

Definition code (c : ascii) : nat := nat_of_ascii c.

(** [str.isspace] on ASCII: \t \n \v \f \r, \x1c-\x1f and the space. *)
Definition is_space (c : ascii) : bool :=
  let n := code c in ((9 <=? n) && (n <=? 13)) || ((28 <=? n) && (n <=? 32)).

Definition is_digit (c : ascii) : bool :=
  let n := code c in (48 <=? n) && (n <=? 57).

Definition digit_val (c : ascii) : Z := Z.of_nat (code c - 48).

Definition is_alpha (c : ascii) : bool :=
  let n := code c in ((65 <=? n) && (n <=? 90)) || ((97 <=? n) && (n <=? 122)).

Definition lower_char (c : ascii) : ascii :=
  let n := code c in if (65 <=? n) && (n <=? 90) then ascii_of_nat (n + 32) else c.

Fixpoint lower (s : string) : string :=
  match s with EmptyString => EmptyString | String c s' => String (lower_char c) (lower s') end.

Fixpoint lstrip (s : string) : string :=
  match s with
  | String c s' => if is_space c then lstrip s' else s
  | EmptyString => EmptyString
  end.

Fixpoint rev_str (s : string) (acc : string) : string :=
  match s with EmptyString => acc | String c s' => rev_str s' (String c acc) end.

Definition rstrip (s : string) : string := rev_str (lstrip (rev_str s EmptyString)) EmptyString.

(** [str.strip()] *)
Definition strip (s : string) : string := rstrip (lstrip s).

Fixpoint starts_with (p s : string) : bool :=
  match p, s with
  | EmptyString, _ => true
  | String c p', String d s' => Ascii.eqb c d && starts_with p' s'
  | String _ _, EmptyString => false
  end.

(** [p in s] for strings. *)
Fixpoint contains (p s : string) : bool :=
  starts_with p s ||
  match s with EmptyString => false | String _ s' => contains p s' end.

(** [s.replace(old, new)] for a non-empty [old]: non-overlapping
    occurrences, left to right. *)
Fixpoint replace_fuel (fuel : nat) (old new s : string) : string :=
  match fuel with
  | O => s
  | S fuel' =>
      match s with
      | EmptyString => EmptyString
      | String c s' =>
          if starts_with old s
          then new ++ replace_fuel fuel' old new (substring (String.length old) (String.length s) s)
          else String c (replace_fuel fuel' old new s')
      end
  end.

Definition replace (s old new : string) : string := replace_fuel (S (String.length s)) old new s.

(** The maximal prefix of [s] whose characters satisfy [p], and the rest. *)
Fixpoint span (p : ascii -> bool) (s : string) : string * string :=
  match s with
  | String c s' => if p c then let (a, b) := span p s' in (String c a, b) else (EmptyString, s)
  | EmptyString => (EmptyString, EmptyString)
  end.

(** [str(n)] for an integer. *)
Fixpoint digits_of_pos (fuel : nat) (n : Z) (acc : string) : string :=
  match fuel with
  | O => acc
  | S f =>
      let acc' := String (ascii_of_nat (48 + Z.to_nat (n mod 10)%Z)) acc in
      if (n <? 10)%Z then acc' else digits_of_pos f (n / 10)%Z acc'
  end.

Definition z_to_str (n : Z) : string :=
  if (n <? 0)%Z then String "-" (digits_of_pos 64 (- n)%Z EmptyString)
  else digits_of_pos 64 n EmptyString.

(** Value of a list of decimal digit characters. *)
Fixpoint digits_value_acc (acc : Z) (s : string) : Z :=
  match s with EmptyString => acc | String c s' => digits_value_acc (10 * acc + digit_val c)%Z s' end.
Definition digits_value (s : string) : Z := digits_value_acc 0%Z s.

(* ------------------------------------------------------------------ *)
(** ** Python's [float(str)] *)

Inductive pyfloat := PFin (q : Q) | PInf (neg : bool) | PNaN.

(** [digitpart ::= digit (["_"] digit)*]: the digits read and the rest. *)
Fixpoint scan_digitpart_more (s : string) : string * string :=
  match s with
  | String c s' =>
      if is_digit c then let (ds, r) := scan_digitpart_more s' in (String c ds, r)
      else if Ascii.eqb c "_" then
        match s' with
        | String d s'' =>
            if is_digit d then let (ds, r) := scan_digitpart_more s'' in (String d ds, r)
            else (EmptyString, s)
        | EmptyString => (EmptyString, s)
        end
      else (EmptyString, s)
  | EmptyString => (EmptyString, EmptyString)
  end.

Definition scan_digitpart (s : string) : option (string * string) :=
  match s with
  | String c s' => if is_digit c then let (ds, r) := scan_digitpart_more s' in Some (String c ds, r) else None
  | EmptyString => None
  end.

Definition scan_sign (s : string) : bool * string :=
  match s with
  | String c s' => if Ascii.eqb c "-" then (true, s') else if Ascii.eqb c "+" then (false, s') else (false, s)
  | EmptyString => (false, s)
  end.

(** [number ::= [digitpart] "." digitpart | digitpart ["."]]:
    integer digits, fraction digits, rest. *)
Definition scan_number (s : string) : option (string * string * string) :=
  match scan_digitpart s with
  | Some (ip, r) =>
      match r with
      | String c r' =>
          if Ascii.eqb c "." then
            match scan_digitpart r' with
            | Some (fp, r'') => Some (ip, fp, r'')
            | None => Some (ip, EmptyString, r')
            end
          else Some (ip, EmptyString, r)
      | EmptyString => Some (ip, EmptyString, r)
      end
  | None =>
      match s with
      | String c r' =>
          if Ascii.eqb c "." then
            match scan_digitpart r' with
            | Some (fp, r'') => Some (EmptyString, fp, r'')
            | None => None
            end
          else None
      | EmptyString => None
      end
  end.

(** [exponent ::= ("e" | "E") [sign] digitpart], possibly absent. *)
Definition scan_exponent (s : string) : option (Z * string) :=
  match s with
  | String c r =>
      if Ascii.eqb c "e" || Ascii.eqb c "E" then
        let (neg, r') := scan_sign r in
        match scan_digitpart r' with
        | Some (ds, r'') => Some (if neg then (- digits_value ds)%Z else digits_value ds, r'')
        | None => None
        end
      else Some (0%Z, s)
  | EmptyString => Some (0%Z, s)
  end.

Definition pow10 (e : Z) : Q :=
  if (e <? 0)%Z then (/ inject_Z (10 ^ (- e)))%Q else inject_Z (10 ^ e)%Z.

Definition py_float (s0 : string) : result pyfloat :=
  let s := strip s0 in
  let (neg, r) := scan_sign s in
  let l := lower r in
  if String.eqb l "inf" || String.eqb l "infinity" then Ok (PInf neg)
  else if String.eqb l "nan" then Ok PNaN
  else
    match scan_number r with
    | Some (ip, fp, r1) =>
        match scan_exponent r1 with
        | Some (e, EmptyString) =>
            let m := digits_value (ip ++ fp) in
            let q := (inject_Z m * pow10 (e - Z.of_nat (String.length fp))%Z)%Q in
            Ok (PFin (if neg then (- q)%Q else q))
        | _ => Raise ValueError
        end
    | None => Raise ValueError
    end.

Definition pf_gt (x : pyfloat) (c : Q) : bool :=
  match x with PFin q => negb (Qle_bool q c) | PInf neg => negb neg | PNaN => false end.

Definition pf_div (x : pyfloat) (c : Q) : pyfloat :=
  match x with PFin q => PFin (q / c)%Q | _ => x end.

Fixpoint sdrop (n : nat) (s : string) : string :=
  match n, s with
  | O, _ => s
  | S n', String _ s' => sdrop n' s'
  | S _, EmptyString => EmptyString
  end.

(* ------------------------------------------------------------------ *)
(** ** [parse_size_to_cr] *)

(** [$] in a Python regex: the end of the string, or a final newline. *)
Definition at_end (r : string) : bool := String.eqb r "" || String.eqb r (String "010" "").

Definition is_num_dot (c : ascii) : bool := is_digit c || Ascii.eqb c ".".

(** [re.match(r"^([0-9.]+)(?:s1|s2|...)$", s)], returning group 1.  The
    greedy group can only end at the end of the maximal run of [0-9.]
    characters: every suffix alternative starts with a letter. *)
Definition match_num_suffix (suffixes : list string) (s : string) : option string :=
  let (g, r) := span is_num_dot s in
  if String.eqb g "" then None
  else if existsb (fun suf => starts_with suf r && at_end (sdrop (String.length suf) r)) suffixes
  then Some g else None.

Definition parse_size_to_cr (cell : option string) : result (option pyfloat) :=
  match cell with
  | None => Ok None                                   (* pd.isnull(s) *)
  | Some s0 =>
      let s := strip s0 in
      if String.eqb s "" || existsb (String.eqb s) ["-"%string; EM_DASH_MOJ; EN_DASH_MOJ]
      then Ok None
      else
        let s := strip (replace (replace (replace s RUPEE_MOJ "") "Rs." "") "Rs" "") in
        let s := replace (replace s "," "") " " "" in
        match match_num_suffix ["cr"; "Cr"; "CR"]%string s with
        | Some g => let* v := py_float g in Ok (Some v)         (* no try: may raise *)
        | None =>
            match match_num_suffix ["l"; "L"; "lakh"; "Lakh"]%string s with
            | Some g => let* v := py_float g in Ok (Some (pf_div v 100))
            | None =>
                match py_float s with                           (* try: ... except: None *)
                | Ok val => if pf_gt val 1000 then Ok (Some (pf_div val (inject_Z 10000000))) else Ok (Some val)
                | Raise _ => Ok None
                end
            end
        end
  end.

(* ------------------------------------------------------------------ *)
(** ** Calendar dates *)

Record date := mkdate { year : Z; month : Z; day : Z }.

Definition is_leap (y : Z) : bool :=
  ((y mod 4 =? 0)%Z && negb (y mod 100 =? 0)%Z) || (y mod 400 =? 0)%Z.

Definition days_in_month (y m : Z) : Z :=
  if (m =? 2)%Z then (if is_leap y then 29 else 28)%Z
  else if existsb (Z.eqb m) [4; 6; 9; 11]%Z then 30%Z else 31%Z.

(** The check of [datetime.date(y, m, d)] (MINYEAR = 1, MAXYEAR = 9999). *)
Definition valid_date (y m d : Z) : bool :=
  (1 <=? y)%Z && (y <=? 9999)%Z && (1 <=? m)%Z && (m <=? 12)%Z && (1 <=? d)%Z && (d <=? days_in_month y m)%Z.

(** [date.replace(year=y)] *)
Definition replace_year (dt : date) (y : Z) : result date :=
  if valid_date y (month dt) (day dt) then Ok (mkdate y (month dt) (day dt)) else Raise ValueError.

(** [date.toordinal()]: days since 0001-01-01 (which has ordinal 1).
    Python's date arithmetic with [timedelta(days=n)] and its comparisons
    of valid dates are those of these ordinals. *)
Definition days_before_year (y : Z) : Z :=
  let y1 := (y - 1)%Z in (y1 * 365 + y1 / 4 - y1 / 100 + y1 / 400)%Z.

Definition days_before_month (y m : Z) : Z :=
  (fold_left (fun acc k => acc + days_in_month y k) (map Z.of_nat (seq 1 (Z.to_nat (m - 1)))) 0)%Z.

Definition toordinal (dt : date) : Z :=
  (days_before_year (year dt) + days_before_month (year dt) (month dt) + day dt)%Z.

(* ------------------------------------------------------------------ *)
(** ** [datetime.strptime] for the directives the script uses

    [_strptime] turns the format into a regular expression (whitespace
    runs become [\s+], [%d] becomes [(3[01]|[12]\d|0[1-9]|[1-9]| [1-9])],
    [%b]/[%B] the alternation of the month names, longest first, [%Y]
    four digits, [%y] two digits), compiles it with IGNORECASE, takes
    [re.match] (the first match of the backtracking search) and raises
    [ValueError] when it fails or leaves unconverted data. *)

Inductive fmt_item := FDay | FMonAbbr | FMonFull | FYear4 | FYear2 | FSpace | FLit (c : ascii).

Record fields := mkfields { f_day : option Z; f_mon : option Z; f_year : option Z }.

Definition no_fields : fields := mkfields None None None.
Definition set_day (d : Z) (f : fields) : fields := mkfields (Some d) (f_mon f) (f_year f).
Definition set_mon (m : Z) (f : fields) : fields := mkfields (f_day f) (Some m) (f_year f).
Definition set_year (y : Z) (f : fields) : fields := mkfields (f_day f) (f_mon f) (Some y).

(** English month names as [LocaleTime] lower-cases them, in the order of
    the generated alternation (sorted by decreasing length, stably). *)
Definition abbr_months : list (string * Z) :=
  [("jan",1);("feb",2);("mar",3);("apr",4);("may",5);("jun",6);
   ("jul",7);("aug",8);("sep",9);("oct",10);("nov",11);("dec",12)]%string%Z.

Definition full_months : list (string * Z) :=
  [("september",9);("february",2);("november",11);("december",12);("january",1);("october",10);
   ("august",8);("march",3);("april",4);("june",6);("july",7);("may",5)]%string%Z.

Definition in_range (c : ascii) (lo hi : nat) : bool := (lo <=? code c) && (code c <=? hi).

(** [(3[01]|[12]\d|0[1-9]|[1-9]| [1-9])], alternatives in order. *)
Definition day_alts (s : string) : list ((fields -> fields) * string) :=
  match s with
  | String c1 s1 =>
      app (match s1 with
       | String c2 s2 =>
           app (if Ascii.eqb c1 "3" && in_range c2 48 49 then [(set_day (30 + digit_val c2)%Z, s2)] else [])
           (app (if in_range c1 49 50 && is_digit c2 then [(set_day (10 * digit_val c1 + digit_val c2)%Z, s2)] else [])
                (if Ascii.eqb c1 "0" && in_range c2 49 57 then [(set_day (digit_val c2), s2)] else []))
       | EmptyString => []
       end)
      (app (if in_range c1 49 57 then [(set_day (digit_val c1), s1)] else [])
      (match s1 with
       | String c2 s2 => if Ascii.eqb c1 " " && in_range c2 49 57 then [(set_day (digit_val c2), s2)] else []
       | EmptyString => []
       end))
  | EmptyString => []
  end.

Definition month_alts (names : list (string * Z)) (s : string) : list ((fields -> fields) * string) :=
  flat_map (fun '(nm, i) =>
    if starts_with nm (lower s) then [(set_mon i, sdrop (String.length nm) s)] else []) names.

Fixpoint ws_prefix_len (s : string) : nat :=
  match s with String c s' => if is_space c then S (ws_prefix_len s') else O | EmptyString => O end.

(** [\s+], greedy: the longest run first, then shorter ones. *)
Fixpoint ws_alts_from (j : nat) (s : string) : list ((fields -> fields) * string) :=
  match j with O => [] | S j' => (fun f => f, sdrop j s) :: ws_alts_from j' s end.

Definition fmt_alts (it : fmt_item) (s : string) : list ((fields -> fields) * string) :=
  match it with
  | FDay => day_alts s
  | FMonAbbr => month_alts abbr_months s
  | FMonFull => month_alts full_months s
  | FYear4 =>
      match s with
      | String a (String b (String c (String d r))) =>
          if is_digit a && is_digit b && is_digit c && is_digit d
          then [(set_year (digits_value (String a (String b (String c (String d EmptyString))))), r)] else []
      | _ => []
      end
  | FYear2 =>
      match s with
      | String a (String b r) =>
          if is_digit a && is_digit b then
            let v := (10 * digit_val a + digit_val b)%Z in
            [(set_year (if (v <=? 68)%Z then v + 2000 else v + 1900)%Z, r)]
          else []
      | _ => []
      end
  | FSpace => ws_alts_from (ws_prefix_len s) s
  | FLit c =>
      match s with
      | String d r => if Ascii.eqb (lower_char c) (lower_char d) then [(fun f => f, r)] else []
      | EmptyString => []
      end
  end.

Fixpoint first_some {A B} (g : A -> option B) (l : list A) : option B :=
  match l with
  | [] => None
  | a :: l' => match g a with Some b => Some b | None => first_some g l' end
  end.

(** The first match of the backtracking search. *)
Fixpoint rmatch (its : list fmt_item) (s : string) (f : fields) : option (fields * string) :=
  match its with
  | [] => Some (f, s)
  | it :: its' => first_some (fun '(u, r) => rmatch its' r (u f)) (fmt_alts it s)
  end.

Definition opt_default (d : Z) (o : option Z) : Z := match o with Some x => x | None => d end.

(** Missing fields default to 1900-01-01.  (A year-less 29 February is
    computed in 1904 and then put back to 1900, which [datetime] rejects:
    the same outcome as the validity check in 1900.) *)
Definition strptime (its : list fmt_item) (s : string) : result date :=
  match rmatch its s no_fields with
  | None => Raise ValueError
  | Some (f, r) =>
      if String.eqb r "" then
        let y := opt_default 1900 (f_year f) in
        let m := opt_default 1 (f_mon f) in
        let d := opt_default 1 (f_day f) in
        if valid_date y m d then Ok (mkdate y m d) else Raise ValueError
      else Raise ValueError
  end.

Definition pat_dbY_dash := [FDay; FLit "-"; FMonAbbr; FLit "-"; FYear4].   (* "%d-%b-%Y" *)
Definition pat_dby_dash := [FDay; FLit "-"; FMonAbbr; FLit "-"; FYear2].   (* "%d-%b-%y" *)
Definition pat_db_dash := [FDay; FLit "-"; FMonAbbr].                      (* "%d-%b" *)
Definition pat_dbY_sp := [FDay; FSpace; FMonAbbr; FSpace; FYear4].         (* "%d %b %Y" *)
Definition pat_dby_sp := [FDay; FSpace; FMonAbbr; FSpace; FYear2].         (* "%d %b %y" *)
Definition pat_db_sp := [FDay; FSpace; FMonAbbr].                          (* "%d %b" *)
Definition pat_dB_sp := [FDay; FSpace; FMonFull].                          (* "%d %B" *)

(** [patterns] of [parse_date_flexible], each with whether it has a year. *)
Definition date_patterns : list (list fmt_item * bool) :=
  [(pat_dbY_dash, true); (pat_dby_dash, true); (pat_db_dash, false);
   (pat_dbY_sp, true); (pat_dby_sp, true); (pat_db_sp, false)].

Definition year_patterns : list (list fmt_item) := [pat_dbY_dash; pat_dby_dash; pat_dbY_sp; pat_dby_sp].

Fixpoint try_patterns (pats : list (list fmt_item * bool)) (s : string) (today : date) : option date :=
  match pats with
  | [] => None
  | (p, has_year) :: pats' =>
      match strptime p s with
      | Ok dt =>
          if has_year then Some dt
          else match replace_year dt (year today) with
               | Ok d => Some d
               | Raise _ => try_patterns pats' s today           (* except: continue *)
               end
      | Raise _ => try_patterns pats' s today
      end
  end.

(** [re.search(r"(\d{1,2})\s*[-/ ]\s*([A-Za-z]{3,})", s)]: groups 1 and 2.
    At a start position: two digits, then one; the first [\s*] longest
    first; after the separator, the second [\s*] and the letter run can
    only succeed with their longest choices (a shorter [\s*] leaves a
    space where a letter is required, and nothing follows the group). *)
Definition is_sep (c : ascii) : bool := Ascii.eqb c "-" || Ascii.eqb c "/" || Ascii.eqb c " ".

Fixpoint downfrom (j : nat) : list nat := match j with O => [O] | S j' => j :: downfrom j' end.

Definition after_day (r1 : string) : option string :=
  first_some (fun j =>
    match sdrop j r1 with
    | String c r3 =>
        if is_sep c then
          let (g2, _) := span is_alpha (sdrop (ws_prefix_len r3) r3) in
          if 3 <=? String.length g2 then Some g2 else None
        else None
    | EmptyString => None
    end) (downfrom (ws_prefix_len r1)).

Definition day_month_at (s : string) : option (string * string) :=
  first_some (fun '(g1, r1) => match after_day r1 with Some g2 => Some (g1, g2) | None => None end)
    (match s with
     | String a (String b r) =>
         app (if is_digit a && is_digit b then [(String a (String b EmptyString), r)] else [])
             (if is_digit a then [(String a EmptyString, String b r)] else [])
     | String a r => if is_digit a then [(String a EmptyString, r)] else []
     | EmptyString => []
     end).

Fixpoint day_month_search (s : string) : option (string * string) :=
  match day_month_at s with
  | Some m => Some m
  | None => match s with String _ s' => day_month_search s' | EmptyString => None end
  end.

Definition parse_date_flexible (cell : option string) (today : date) : option date :=
  match cell with
  | None => None                                          (* pd.isnull(s) *)
  | Some s0 =>
      let s := strip s0 in
      if String.eqb s "" then None else
      match try_patterns date_patterns s today with
      | Some d => Some d
      | None =>
          let parts := strip (replace s "," " ") in
          match bind (strptime pat_dB_sp parts) (fun dt => replace_year dt (year today)) with
          | Ok d => Some d
          | Raise _ =>
              match day_month_search s with
              | Some (g1, mon) =>
                  let dd := digits_value g1 in
                  match strptime pat_dbY_sp (z_to_str dd ++ " " ++ mon ++ " " ++ z_to_str (year today)) with
                  | Ok d => Some d
                  | Raise _ => None
                  end
              | None => None
              end
          end
      end
  end.

(* ------------------------------------------------------------------ *)
(** ** Tables and [ci_col] *)

(** A column label: a string, or an integer (pandas' positional labels). *)
Inductive header := HStr (s : string) | HInt (n : Z).

(** A DataFrame: its column labels and its rows of cells, indexed 0..n-1. *)
Record frame := mkframe { columns : list header; rows : list (list (option string)) }.

Definition header_eqb (a b : header) : bool :=
  match a, b with
  | HStr x, HStr y => String.eqb x y
  | HInt x, HInt y => Z.eqb x y
  | _, _ => false
  end.

(** [str(col)] *)
Definition header_str (h : header) : string :=
  match h with HStr s => s | HInt n => z_to_str n end.

(** [c.lower()]: integers have no such method. *)
Definition header_lower (h : header) : result string :=
  match h with HStr s => Ok (lower s) | HInt _ => Raise AttributeError end.

(** A dict built by a comprehension: an association list in insertion
    order; a repeated key keeps its last value. *)
Fixpoint dict_get (k : string) (d : list (string * header)) : option header :=
  match d with
  | [] => None
  | (k', v) :: d' =>
      match dict_get k d' with
      | Some v' => Some v'
      | None => if String.eqb k k' then Some v else None
      end
  end.

Definition ci_col (cols : list header) (candidates : list string) : result (option header) :=
  let* cols_lower := mapM (fun c => let* l := header_lower c in Ok (l, c)) cols in
  match first_some (fun cand => dict_get (lower cand) cols_lower) candidates with
  | Some c => Ok (Some c)
  | None =>
      Ok (find (fun col => existsb (fun cand => contains (lower cand) (lower (header_str col))) candidates) cols)
  end.

(* ------------------------------------------------------------------ *)
(** ** [normalize_df] *)

(** The seven standardised columns, as cells (before [fillna]). *)
Record raw_row := mkraw {
  r_name : option string; r_open : option string; r_close : option string;
  r_size : option string; r_gmp : option string; r_sub : option string; r_listing : option string }.

(** A row of [df_std] after [fillna("")] and the sort. *)
Record std_row := mkstd {
  s_name : string; s_open : string; s_close : string; s_size : string;
  s_gmp : string; s_sub : string; s_listing : string;
  s_close_parsed : option date; s_open_parsed : option date;
  s_size_num : option pyfloat;          (* [IPO_Size_num]; [None] is the "" left by fillna *)
  s_gmp_display : string;
  s_sort : pyfloat;                     (* [IPO_Size_sort] *)
  s_rank : nat }.

(** Truthiness of a label in [if name and ...]. *)
Definition header_truthy (h : header) : bool :=
  match h with HStr s => negb (String.eqb s "") | HInt n => negb (Z.eqb n 0) end.

Fixpoint index_of (h : header) (cols : list header) (i : nat) : option nat :=
  match cols with
  | [] => None
  | c :: cols' => if header_eqb h c then Some i else index_of h cols' (S i)
  end.

Definition count_header (h : header) (cols : list header) : nat :=
  length (filter (header_eqb h) cols).

(** [safe_col(df, name)] for one row: the column when the label is truthy
    and present ([df[name]] of a repeated label is a DataFrame, which
    cannot be assigned to one column: ValueError), else "". *)
Definition safe_cell (cols : list header) (name : option header) (row : list (option string))
  : result (option string) :=
  match name with
  | Some h =>
      if header_truthy h then
        match index_of h cols 0 with
        | Some i => if 2 <=? count_header h cols then Raise ValueError else Ok (nth i row None)
        | None => Ok (Some ""%string)
        end
      else Ok (Some ""%string)
  | None => Ok (Some ""%string)
  end.

(** [astype(str)] of a cell. *)
Definition astype_str (c : option string) : string :=
  match c with Some s => s | None => "nan" end.

(** [fillna("")] of a cell. *)
Definition fill (c : option string) : string :=
  match c with Some s => s | None => "" end.

Fixpoint drop_ws_list (l : list ascii) : list ascii :=
  match l with c :: l' => if is_space c then drop_ws_list l' else l | [] => [] end.

(** [.str.replace(r"\s*U$", "", regex=True)]: the leftmost match is the
    final "U" (or the "U" before a final newline) with the whole run of
    whitespace before it. *)
Definition sub_trailing_U (s : string) : string :=
  match rev (list_ascii_of_string s) with
  | c :: rest =>
      if Ascii.eqb c "U" then string_of_list_ascii (rev (drop_ws_list rest))
      else if Ascii.eqb c "010" then
        match rest with
        | u :: rest' => if Ascii.eqb u "U" then string_of_list_ascii (rev ("010"%char :: drop_ws_list rest')) else s
        | [] => s
        end
      else s
  | [] => s
  end.

Definition clean_name (c : option string) : string := strip (sub_trailing_U (astype_str c)).

(** The SME and closed-listing filters (both on [astype(str)]). *)
Definition keep_row (r : raw_row) : bool :=
  negb (contains "sme" (lower (clean_name (r_name r)))) &&
  negb (contains CROSS_MOJ (astype_str (r_listing r))).

(** [parse_gmp_field] *)
Definition is_amt (c : ascii) : bool := is_digit c || Ascii.eqb c "." || Ascii.eqb c ",".

(** [re.search(r"â‚¹\s*([0-9.,]+)", raw)]: after the symbol, [\s*] can
    only succeed with its longest choice. *)
Fixpoint rupee_search (s : string) : option string :=
  let here :=
    if starts_with RUPEE_MOJ s then
      let r := sdrop (String.length RUPEE_MOJ) s in
      let (g, _) := span is_amt (sdrop (ws_prefix_len r) r) in
      if String.eqb g "" then None else Some g
    else None in
  match here with
  | Some g => Some g
  | None => match s with String _ s' => rupee_search s' | EmptyString => None end
  end.

(** [re.search(r"([0-9.,]+)\s*%|\(([-+]?[0-9.,]+)%\)", raw)]: groups 1 and 2.
    The greedy runs can only succeed with their longest choices. *)
Definition percent_at (s : string) : option (option string * option string) :=
  let alt1 : option (option string * option string) :=
    let (g, r) := span is_amt s in
    if String.eqb g "" then None
    else if starts_with "%" (sdrop (ws_prefix_len r) r) then Some (Some g, None) else None in
  let alt2 : option (option string * option string) :=
    match s with
    | String c r =>
        if Ascii.eqb c "(" then
          let try_run (sign : string) (r' : string) : option (option string * option string) :=
            let (g, r'') := span is_amt r' in
            if String.eqb g "" then None
            else if starts_with "%)" r'' then Some (None, Some (sign ++ g)%string) else None in
          match r with
          | String sg r' =>
              if Ascii.eqb sg "-" || Ascii.eqb sg "+"
              then match try_run (String sg EmptyString) r' with Some m => Some m | None => try_run ""%string r end
              else try_run ""%string r
          | EmptyString => None
          end
        else None
    | EmptyString => None
    end in
  match alt1 with Some m => Some m | None => alt2 end.

Fixpoint percent_search (s : string) : option (option string * option string) :=
  match percent_at s with
  | Some m => Some m
  | None => match s with String _ s' => percent_search s' | EmptyString => None end
  end.

Definition gmp_default : string := RUPEE_MOJ ++ "-- (0.00%)".

Definition parse_gmp_field (cell : option string) : string :=
  match cell with
  | None => gmp_default
  | Some s0 =>
      let raw := strip s0 in
      if String.eqb raw "" || existsb (String.eqb raw) ["-"%string; EM_DASH_MOJ; EN_DASH_MOJ]
      then gmp_default
      else
        let rupee := option_map (fun g => replace g "," "") (rupee_search raw) in
        let percent : option string :=
          match percent_search raw with
          | Some (Some g, _) => Some (replace g "," "")
          | Some (None, Some g) => Some (replace g "," "")
          | _ => None
          end in
        let rupee_disp : string := match rupee with
                          | Some r => if String.eqb r "" then (RUPEE_MOJ ++ "--")%string else (RUPEE_MOJ ++ r)%string
                          | None => (RUPEE_MOJ ++ "--")%string end in
        let percent_disp : string := match percent with
                            | Some p => if String.eqb p "" then "(0.00%)"%string else ("(" ++ p ++ "%)")%string
                            | None => "(0.00%)"%string end in
        (rupee_disp ++ " " ++ percent_disp)%string
  end.

(** One kept row: dates, size and GMP display, then [fillna("")] (a NaN
    float, as [float("nan")] gives, is filled as well). *)
Definition prep_row (today : date) (r : raw_row) : result std_row :=
  let* size := parse_size_to_cr (r_size r) in
  let size := match size with Some PNaN => None | _ => size end in
  Ok (mkstd (clean_name (r_name r)) (fill (r_open r)) (fill (r_close r)) (fill (r_size r))
            (fill (r_gmp r)) (fill (r_sub r)) (fill (r_listing r))
            (parse_date_flexible (r_close r) today) (parse_date_flexible (r_open r) today)
            size (parse_gmp_field (r_gmp r)) (PFin 0) 0).

Definition with_sort (k : pyfloat) (r : std_row) : std_row :=
  mkstd (s_name r) (s_open r) (s_close r) (s_size r) (s_gmp r) (s_sub r) (s_listing r)
        (s_close_parsed r) (s_open_parsed r) (s_size_num r) (s_gmp_display r) k (s_rank r).

Definition with_rank (n : nat) (r : std_row) : std_row :=
  mkstd (s_name r) (s_open r) (s_close r) (s_size r) (s_gmp r) (s_sub r) (s_listing r)
        (s_close_parsed r) (s_open_parsed r) (s_size_num r) (s_gmp_display r) (s_sort r) n.

(** [IPO_Size_sort]: [float(x) if pd.notnull(x) else 0.0] over the column;
    [float("")] raises, and the [except] sets the whole column to 0.0. *)
Definition size_sort_column (rs : list std_row) : list std_row :=
  if forallb (fun r => match s_size_num r with Some _ => true | None => false end) rs
  then map (fun r => with_sort (match s_size_num r with Some v => v | None => PFin 0 end) r) rs
  else map (with_sort (PFin 0)) rs.

(** Order of the (non-NaN) sort keys. *)
Definition pf_leb (x y : pyfloat) : bool :=
  match x, y with
  | PInf true, _ => true
  | _, PInf false => true
  | PFin a, PFin b => Qle_bool a b
  | _, _ => false
  end.

(** [sort_values(by="IPO_Size_sort", ascending=False)]: pandas sorts the
    reversed column with numpy's default sort and reverses the result; on
    fewer than 17 rows numpy's quicksort is an insertion sort, so equal
    keys keep their order.  The model is that stable descending sort. *)
Fixpoint insert_desc (x : std_row) (l : list std_row) : list std_row :=
  match l with
  | [] => [x]
  | y :: l' => if pf_leb (s_sort x) (s_sort y) then y :: insert_desc x l' else x :: l
  end.

Definition sort_desc (l : list std_row) : list std_row :=
  fold_left (fun acc x => insert_desc x acc) l [].

(** [reset_index(drop=True)]; [df_std["Rank"] = df_std.index + 1] *)
Fixpoint number_from (n : nat) (l : list std_row) : list std_row :=
  match l with [] => [] | r :: l' => with_rank n r :: number_from (S n) l' end.

Definition normalize_rows (today : date) (raws : list raw_row) : result (list std_row) :=
  let kept := filter keep_row raws in
  let* rs := mapM (prep_row today) kept in
  Ok (number_from 1 (sort_desc (size_sort_column rs))).

Definition name_aliases := ["Name"; "Company"; "Issue Name"]%string.
Definition open_aliases := ["Open"; "Opening"; "Open Date"]%string.
Definition close_aliases := ["Close"; "Closing"; "Close Date"]%string.
Definition size_aliases := ["IPO Size"; "Issue Size"; "Size"]%string.
Definition gmp_aliases := ["GMP"; "Grey Market Premium"; "GM P"]%string.
Definition sub_aliases := ["Sub"; "Subscription"; "Subs"]%string.
Definition listing_aliases := ["Listing"; "List"; "Status"]%string.

(** The rows of [df] are taken with the consecutive labels 0..n-1 that
    [read_html] gives (no all-missing row dropped before): the fallback
    column [pd.Series([""] * len(df))] then lines up row by row. *)
Definition normalize_df (today : date) (df : frame) : result (list std_row) :=
  let cols := columns df in
  let* col_name := ci_col cols name_aliases in
  let* col_open := ci_col cols open_aliases in
  let* col_close := ci_col cols close_aliases in
  let* col_size := ci_col cols size_aliases in
  let* col_gmp := ci_col cols gmp_aliases in
  let* col_sub := ci_col cols sub_aliases in
  let* col_listing := ci_col cols listing_aliases in
  let* raws := mapM (fun row =>
      let* a := safe_cell cols col_name row in
      let* b := safe_cell cols col_open row in
      let* c := safe_cell cols col_close row in
      let* d := safe_cell cols col_size row in
      let* e := safe_cell cols col_gmp row in
      let* f := safe_cell cols col_sub row in
      let* g := safe_cell cols col_listing row in
      Ok (mkraw a b c d e f g)) (rows df) in
  normalize_rows today raws.

(* ------------------------------------------------------------------ *)
(** ** [filter_relevant] *)

Definition close_in_window (today : date) (d : option date) : bool :=
  match d with
  | Some dt => (toordinal today - 1 <=? toordinal dt)%Z && (toordinal dt <=? toordinal today + 5)%Z
  | None => false                                       (* not a datetime.date *)
  end.

Definition open_in_future (today : date) (d : option date) : bool :=
  match d with Some dt => (toordinal today <? toordinal dt)%Z | None => false end.

Definition relevant (today : date) (r : std_row) : bool :=
  close_in_window today (s_close_parsed r) || open_in_future today (s_open_parsed r).

Definition filter_relevant (today : date) (rs : list std_row) : list std_row :=
  filter (relevant today) rs.

(* ------------------------------------------------------------------ *)
(** ** [format_message_html] *)

(** [html.escape(s)] with quote=True: ampersand, less-than, greater-than,
    double quote (code 34) and single quote (code 39). *)
Fixpoint html_escape (s : string) : string :=
  match s with
  | EmptyString => EmptyString
  | String c s' =>
      let e := html_escape s' in
      if Ascii.eqb c "&" then ("&amp;" ++ e)%string
      else if Ascii.eqb c "<" then ("&lt;" ++ e)%string
      else if Ascii.eqb c ">" then ("&gt;" ++ e)%string
      else if Ascii.eqb c (ascii_of_nat 34) then ("&quot;" ++ e)%string
      else if Ascii.eqb c "'" then ("&#x27;" ++ e)%string
      else String c e
  end.

Definition pad2 (n : Z) : string :=
  if (n <? 10)%Z then ("0" ++ z_to_str n)%string else z_to_str n.

Definition month_abbr_title : list string :=
  ["Jan";"Feb";"Mar";"Apr";"May";"Jun";"Jul";"Aug";"Sep";"Oct";"Nov";"Dec"]%string.

(** [date.strftime("%d-%b-%Y")] *)
Definition strftime_dbY (dt : date) : string :=
  (pad2 (day dt) ++ "-" ++ nth (Z.to_nat (month dt - 1)) month_abbr_title "" ++ "-" ++ z_to_str (year dt))%string.

(** Round half to even of a non-negative rational. *)
Definition round_half_even (q : Q) : Z :=
  let fl := (Qnum q / Zpos (Qden q))%Z in
  let r := (q - inject_Z fl)%Q in
  match Qcompare r (1 # 2) with
  | Gt => (fl + 1)%Z
  | Lt => fl
  | Eq => if Z.even fl then fl else (fl + 1)%Z
  end.

(** Thousands separators of a decimal digit string. *)
Fixpoint group3_rev (l : list ascii) : list ascii :=
  match l with
  | a :: b :: c :: (_ :: _) as rest => a :: b :: c :: ","%char :: group3_rev rest
  | _ => l
  end.

Definition with_commas (s : string) : string :=
  string_of_list_ascii (rev (group3_rev (rev (list_ascii_of_string s)))).

(** [f"{size:,.2f}"] *)
Definition format_2f (x : pyfloat) : string :=
  match x with
  | PFin q =>
      let neg := negb (Qle_bool 0 q) in
      let n := round_half_even ((if neg then - q else q) * 100)%Q in
      ((if neg then "-" else "") ++ with_commas (z_to_str (n / 100)) ++ "." ++ pad2 (n mod 100))%string
  | PInf neg => if neg then "-inf" else "inf"
  | PNaN => "nan"
  end.

Definition or_dashes (s : string) : string := if String.eqb s "" then "--" else s.

Definition nl : string := String "010" EmptyString.

Fixpoint join_lines (l : list string) : string :=
  match l with
  | [] => EmptyString
  | [x] => x
  | x :: l' => (x ++ nl ++ join_lines l')%string
  end.

Definition size_disp (r : std_row) : string :=
  match s_size_num r with
  | Some v => (format_2f v ++ " Cr")%string
  | None => or_dashes (s_size r)                  (* str(row.get("IPO Size", "") or "--") *)
  end.

Definition summary_line (r : std_row) : string :=
  (z_to_str (Z.of_nat (s_rank r)) ++ ". <b>" ++ html_escape (s_name r) ++ "</b> (Opens: "
   ++ html_escape (s_open r) ++ ", Closes: " ++ html_escape (s_close r) ++ ")")%string.

Definition detail_lines (r : std_row) : list string :=
  [(DIAMOND_MOJ ++ " <b>" ++ html_escape (s_name r) ++ "</b>")%string;
   (BULLET_MOJ ++ " " ++ MONEY_MOJ ++ " Issue Size: " ++ size_disp r)%string;
   (BULLET_MOJ ++ " " ++ UPCHART_MOJ ++ " GMP: " ++ html_escape (s_gmp_display r) ++ " | "
      ++ CHART_MOJ ++ " Sub: " ++ or_dashes (html_escape (s_sub r)))%string;
   (BULLET_MOJ ++ " " ++ CALENDAR_MOJ ++ " " ++ html_escape (s_open r) ++ " " ++ EN_DASH_MOJ ++ " "
      ++ html_escape (s_close r) ++ " | Listing: " ++ or_dashes (html_escape (s_listing r)))%string;
   ""%string].

Definition format_message_html (today : date) (rs : list std_row) : string :=
  let today_str := strftime_dbY today in
  match rs with
  | [] => ("<b>" ++ MEGAPHONE_MOJ ++ " IPO Updates - " ++ html_escape today_str ++ "</b>" ++ nl ++ nl
           ++ "No upcoming/current IPOs found.")%string
  | _ =>
      strip (join_lines
        ([("<b>" ++ MEGAPHONE_MOJ ++ " IPO Updates - " ++ html_escape today_str ++ "</b>")%string;
          ""%string;
          (SOON_MOJ ++ " <b>Upcoming / Current IPOs</b>")%string]
         ++ map summary_line rs
         ++ [""%string; (CHART_MOJ ++ " <b>Details</b>")%string]
         ++ flat_map detail_lines rs))
  end.

(* ------------------------------------------------------------------ *)
(** ** [find_and_parse_tables] and [main] *)

(** A [<table>] element of the page: what [pd.read_html] returns for it
    ([None] when it raises ValueError), and the texts of the [td]/[th]
    cells of each of its [tr] rows, for the manual fallback. *)
Record table_elem := mktable { te_read_html : option (list frame); te_tr_cells : list (list string) }.

Fixpoint int_headers (i n : nat) : list header :=
  match n with O => [] | S n' => HInt (Z.of_nat i) :: int_headers (S i) n' end.

Definition manual_frames (cells : list (list string)) : list frame :=
  let rs := filter (fun r => negb (Nat.eqb (length r) 0)) cells in
  match rs with
  | [] => []
  | _ =>
      let maxcols := fold_left (fun m r => Nat.max m (length r)) rs 0 in
      let norm := map (fun r => r ++ repeat ""%string (maxcols - length r)) rs in
      match norm with
      | h :: (_ :: _) as body => [mkframe (map HStr h) (map (map Some) body)]
      | _ => [mkframe (int_headers 0 maxcols) (map (map Some) norm)]
      end
  end.

Definition find_and_parse_tables (tables : list table_elem) : list frame :=
  flat_map (fun t => match te_read_html t with
                     | Some parsed => parsed
                     | None => manual_frames (te_tr_cells t)
                     end) tables.

Definition is_some_cell (c : option string) : bool := match c with Some _ => true | None => false end.

(** [dropna(how="all", axis=1)] *)
Definition drop_na_cols (df : frame) : frame :=
  let keep := filter (fun j => existsb (fun row => is_some_cell (nth j row None)) (rows df))
                     (seq 0 (length (columns df))) in
  mkframe (map (fun j => nth j (columns df) (HInt 0)) keep)
          (map (fun row => map (fun j => nth j row None) keep) (rows df)).

(** [dropna(how="all", axis=0)] *)
Definition drop_na_rows (df : frame) : frame :=
  mkframe (columns df) (filter (existsb is_some_cell) (rows df)).

Definition frame_empty (df : frame) : bool :=
  Nat.eqb (length (rows df)) 0 || Nat.eqb (length (columns df)) 0.

Definition frame_cells (df : frame) : nat := length (rows df) * length (columns df).

(** [max(dfs, key=...)]: the first of the largest. *)
Definition max_by_cells (d0 : frame) (ds : list frame) : frame :=
  fold_left (fun best d => if frame_cells best <? frame_cells d then d else best) ds d0.

(** What a run does: the messages handed to [send_telegram_message] and
    the exit status. *)
Record run := mkrun { notified : list string; exit_code : nat }.

(** [main]: [fetched] is the fetched page ([None] when [fetch_html]
    raises); [send_ok] is what [send_telegram_message] returns. *)
Definition main (fetched : option (list table_elem)) (today : date) (send_ok : bool) : run :=
  match fetched with
  | None => mkrun [] 1
  | Some tables =>
      match find_and_parse_tables tables with
      | [] => mkrun [] 0                                  (* "No tables found" *)
      | dfs =>
          let dfs_clean := map (fun d => drop_na_rows (drop_na_cols d))
                               (filter (fun d => negb (frame_empty (drop_na_cols d))) dfs) in
          match dfs_clean with
          | [] => mkrun [] 0                              (* "all are empty after cleanup" *)
          | d0 :: ds =>
              match normalize_df today (max_by_cells d0 ds) with
              | Raise _ => mkrun [] 1
              | Ok df_std =>
                  let df_filtered := filter_relevant today df_std in
                  let msg := format_message_html today df_filtered in
                  match df_filtered with
                  | [] => mkrun [msg] 0
                  | _ => if send_ok then mkrun [msg] 0 else mkrun [msg] 1
                  end
              end
          end
      end
  end.

(* ------------------------------------------------------------------ *)
(** ** The weighted score of the specification

    Not in the script: the specification's ranking formula, written from
    its words, to compare the script's order against.  A record is a
    (size, premium amount) pair of the surviving set. *)

Definition list_max (l : list Q) : Q := fold_left (fun a b => if Qle_bool a b then b else a) l 0%Q.

Definition norm_by (x m : Q) : Q := if Qeq_bool m 0 then 0%Q else (x / m)%Q.

Definition spec_score (set : list (Q * Q)) (rec : Q * Q) : Q :=
  let ms := list_max (map fst set) in
  let mp := list_max (map snd set) in
  ((7 # 10) * norm_by (fst rec) ms + (3 # 10) * norm_by (snd rec) mp)%Q.

(* ------------------------------------------------------------------ *)
(** ** Sample inputs *)

Definition d2025_01_01 : date := mkdate 2025 1 1.

Definition row_of (name size gmp opn cls : string) : raw_row :=
  mkraw (Some name) (Some opn) (Some cls) (Some size) (Some gmp) (Some ""%string) (Some ""%string).

Definition ipo_header : list header :=
  [HStr "Company"; HStr "Issue Size"; HStr "GMP"; HStr "Open Date"; HStr "Close Date"]%string.

Definition ipo_table (rs : list (list string)) : frame := mkframe ipo_header (map (map Some) rs).

Definition page_of (df : frame) : option (list table_elem) := Some [mktable (Some [df]) []].

(* ------------------------------------------------------------------ *)
(** ** Case-insensitive comparisons of labels *)

Definition ci_eq (a c : string) : bool := String.eqb (lower a) (lower c).

Definition ci_contains_any (cands : list string) (c : string) : bool :=
  existsb (fun cand => contains (lower cand) (lower c)) cands.

(* ------------------------------------------------------------------ *)
(** ** Views of the normalised rows *)

(** Descending order of the sort keys. *)
Definition desc_key (a b : pyfloat) : Prop := pf_leb b a = true.

Definition desc (r1 r2 : std_row) : Prop := desc_key (s_sort r1) (s_sort r2).

Definition not_nan (x : pyfloat) : bool := match x with PNaN => false | _ => true end.

(** A row with its premium text and display blanked. *)
Definition erase_gmp (r : std_row) : std_row :=
  mkstd (s_name r) (s_open r) (s_close r) (s_size r) "" (s_sub r) (s_listing r)
        (s_close_parsed r) (s_open_parsed r) (s_size_num r) "" (s_sort r) (s_rank r).

(** A row with everything derived from its size or premium cell, and its
    sort key and rank, blanked. *)
Definition erase_size_gmp (r : std_row) : std_row :=
  mkstd (s_name r) (s_open r) (s_close r) "" "" (s_sub r) (s_listing r)
        (s_close_parsed r) (s_open_parsed r) None "" (PFin 0) 0.

(** The same raw row with another premium cell. *)
Definition set_raw_gmp (g : option string) (w : raw_row) : raw_row :=
  mkraw (r_name w) (r_open w) (r_close w) (r_size w) g (r_sub w) (r_listing w).

(** Two raw rows that differ at most in their premium cell. *)
Definition same_but_gmp (w w' : raw_row) : Prop := set_raw_gmp (r_gmp w') w = w'.

(** Two raw rows that differ at most in their size and premium cells. *)
Definition same_but_size_gmp (w w' : raw_row) : Prop :=
  r_name w = r_name w' /\ r_open w = r_open w' /\ r_close w = r_close w' /\
  r_sub w = r_sub w' /\ r_listing w = r_listing w'.

(** The text fields that identify a listed issue. *)
Definition ident (r : std_row) : string * string * string * string * string :=
  (s_name r, s_open r, s_close r, s_sub r, s_listing r).

(* ------------------------------------------------------------------ *)
(** ** Reading the date patterns backwards *)

(** Character classes: digit 0, whitespace 1, letter 2, hyphen 3, other 4. *)
Definition cls (c : ascii) : nat :=
  if is_digit c then 0 else if is_space c then 1 else if is_alpha c then 2
  else if Ascii.eqb c "-" then 3 else 4.

(** The characters of a string, last first. *)
Definition rtail (s : string) : list ascii := rev (list_ascii_of_string s).

(** Any path of the backtracking search (not only the first): [rm its s f
    f' r] when the items [its] can consume [s] up to the rest [r], turning
    the fields [f] into [f']. *)
Inductive rm : list fmt_item -> string -> fields -> fields -> string -> Prop :=
  | rm_nil s f : rm [] s f f s
  | rm_cons it its s f u r f' r' :
      In (u, r) (fmt_alts it s) -> rm its r (u f) f' r' -> rm (it :: its) s f f' r'.

(** [str(y)] of a year of [datetime.date] is one to four digits, and reads
    back as [y] when it has four. *)
Definition ystr_check (y : Z) : bool :=
  match list_ascii_of_string (z_to_str y) with
  | [a] => is_digit a
  | [a; b] => is_digit a && is_digit b
  | [a; b; c] => is_digit a && is_digit b && is_digit c
  | [a; b; c; d] => is_digit a && is_digit b && is_digit c && is_digit d &&
                    Z.eqb (digits_value (z_to_str y)) y
  | _ => false
  end.

(** What a full match leaves visible at the end of the string: for each
    position, last first, the classes its character may have. *)
Definition fits (sh : list (list nat)) (l : list ascii) : Prop :=
  exists l1 rest, l = l1 ++ rest /\ Forall2 (fun cs c => In (cls c) cs) sh l1.

(** Two shapes that no string can have at once differ at some position. *)
Fixpoint compatible (sh1 sh2 : list (list nat)) : bool :=
  match sh1, sh2 with
  | cs1 :: sh1', cs2 :: sh2' =>
      existsb (fun k => existsb (Nat.eqb k) cs2) cs1 && compatible sh1' sh2'
  | _, _ => true
  end.

Definition sh_Y4_dash : list (list nat) := [[0]; [0]; [0]; [0]; [3]].   (* "-dddd" *)
Definition sh_y2_dash : list (list nat) := [[0]; [0]; [3]].             (* "-dd" *)
Definition sh_b_dash : list (list nat) := [[2]; [2]; [2]; [3]].         (* "-Mon" *)
Definition sh_Y4_sp : list (list nat) := [[0]; [0]; [0]; [0]; [1]].     (* " dddd" *)
Definition sh_y2_sp : list (list nat) := [[0]; [0]; [1]].               (* " dd" *)
Definition sh_b_sp : list (list nat) := [[2]; [2]; [2]; [1]].           (* " Mon" *)
Definition sh_B_sp : list (list nat) := [[2]; [2]; [2]; [2; 1]].        (* "Month" or " May" *)

(** Month names: letters only, at least three of them. *)
Definition alpha_names (names : list (string * Z)) : bool :=
  forallb (fun '(nm, _) => forallb is_alpha (list_ascii_of_string nm) && (3 <=? String.length nm)) names.

(* ------------------------------------------------------------------ *)
(** ** Trimming on lists of characters *)

Definition all_ws (l : list ascii) : bool := forallb is_space l.

(** Right-trimming on lists. *)
Definition rtrim (l : list ascii) : list ascii := rev (drop_ws_list (rev l)).

(** A trimmed core: empty, or starting and ending with a non-space. *)
Definition core (m : list ascii) : Prop :=
  m = [] \/ (is_space (hd " "%char m) = false /\ is_space (last m " "%char) = false).

(* ================================================================== *)
(** * Properties *)

(** ** C5: the size parser *)

(** C5.  A size with a [Cr] or [Lakh] suffix whose numeric part
    is not a number, such as "1.2.3 Cr", makes [parse_size_to_cr] raise
    ValueError ([float] is called outside any [try]), while the bare-number
    path of the same function returns absent for "1.2.3"; the exception
    escapes [normalize_df] and [main] exits with status 1. *)
Theorem parse_size_to_cr_raises_on_bad_cr :
  parse_size_to_cr (Some "1.2.3 Cr"%string) = Raise ValueError /\
  parse_size_to_cr (Some "1.2.3 Lakh"%string) = Raise ValueError /\
  parse_size_to_cr (Some "1.2.3"%string) = Ok None /\
  main (page_of (ipo_table [["Alpha Ltd"; "1.2.3 Cr"; "-"; "1-Jan"; "3-Jan"]]%string)) d2025_01_01 true
    = mkrun [] 1.
Proof. vm_compute. repeat split. Qed.

(** ** C8: escaping in the message *)

(** C8.  A size that does not parse is shown raw: the fallback
    [str(row.get("IPO Size", "") or "--")] is interpolated without
    [html.escape], unlike every other free-text field.  With the size
    "<TBA>" the message handed to Telegram carries the markup
    "Issue Size: <TBA>" unescaped, while the same text in the name is
    escaped. *)
Theorem format_message_html_unescaped_size :
  exists msg,
    main (page_of (ipo_table [["Alpha Ltd"; "<TBA>"; "-"; "1-Jan"; "3-Jan"]]%string))
         d2025_01_01 true = mkrun [msg] 0 /\
    contains "Issue Size: <TBA>" msg = true /\
    contains "&lt;TBA&gt;" msg = false /\
    main (page_of (ipo_table [["<TBA>"; "5 Cr"; "-"; "1-Jan"; "3-Jan"]]%string))
         d2025_01_01 true =
    mkrun [format_message_html d2025_01_01
             (filter_relevant d2025_01_01
                match normalize_df d2025_01_01 (ipo_table [["<TBA>"; "5 Cr"; "-"; "1-Jan"; "3-Jan"]]%string)
                with Ok l => l | Raise _ => [] end)] 0 /\
    contains "<b>&lt;TBA&gt;</b>" (format_message_html d2025_01_01
             (filter_relevant d2025_01_01
                match normalize_df d2025_01_01 (ipo_table [["<TBA>"; "5 Cr"; "-"; "1-Jan"; "3-Jan"]]%string)
                with Ok l => l | Raise _ => [] end)) = true.
Proof. eexists. vm_compute. repeat split. Qed.

(** ** C9: runs without data *)

Lemma filter_all_false {A} (f : A -> bool) (l : list A) :
  Forall (fun x => f x = false) l -> filter f l = [].
Proof. induction 1 as [|x l Hx _ IH]; simpl; [reflexivity | now rewrite Hx]. Qed.

Lemma drop_na_cols_rows (d : frame) : length (rows (drop_na_cols d)) = length (rows d).
Proof. unfold drop_na_cols; simpl. apply length_map. Qed.

(** A table that [dropna] on both axes leaves empty was already empty
    after dropping the all-missing columns. *)
Lemma drop_na_empty (d : frame) :
  frame_empty (drop_na_rows (drop_na_cols d)) = true -> frame_empty (drop_na_cols d) = true.
Proof.
  unfold frame_empty. destruct (Nat.eqb (length (rows (drop_na_cols d))) 0) eqn:Er; [reflexivity|].
  destruct (Nat.eqb (length (columns (drop_na_cols d))) 0) eqn:Ec; [now rewrite orb_true_r|].
  change (columns (drop_na_rows (drop_na_cols d))) with (columns (drop_na_cols d)).
  rewrite Ec, orb_false_r. intro H. apply Nat.eqb_eq in H.
  apply Nat.eqb_neq in Ec. unfold drop_na_cols in Ec, H; simpl in Ec, H. rewrite length_map in Ec.
  destruct (filter _ (seq 0 (length (columns d)))) as [|j keep] eqn:Ek; [simpl in Ec; congruence|].
  assert (Hj : In j (filter (fun j => existsb (fun row => is_some_cell (nth j row None)) (rows d))
                      (seq 0 (length (columns d))))) by (rewrite Ek; left; reflexivity).
  apply filter_In in Hj as [_ Hj]. apply existsb_exists in Hj as [row [Hrow Hcell]].
  apply length_zero_iff_nil in H.
  assert (Hin : In (map (fun j0 => nth j0 row None) (j :: keep))
                   (filter (existsb is_some_cell) (map (fun row => map (fun j0 => nth j0 row None) (j :: keep)) (rows d)))).
  { apply filter_In; split.
    - apply in_map_iff. exists row; split; [reflexivity | exact Hrow].
    - simpl. now rewrite Hcell. }
  rewrite H in Hin. destruct Hin.
Qed.

(** C9.  [main] ends with status 0 and sends nothing when
    there is no table, or when every parsed table is empty once its
    all-missing columns and rows are dropped (this includes a page without
    any table element). *)
Theorem main_no_data_exit_zero (tables : list table_elem) (today : date) (send_ok : bool) :
  Forall (fun d => frame_empty (drop_na_rows (drop_na_cols d)) = true) (find_and_parse_tables tables) ->
  main (Some tables) today send_ok = mkrun [] 0.
Proof.
  intro H. unfold main. destruct (find_and_parse_tables tables) as [|d ds] eqn:E; [reflexivity|].
  rewrite filter_all_false; [reflexivity|].
  eapply Forall_impl; [|exact H]. intros x Hx. simpl. now rewrite (drop_na_empty x Hx).
Qed.

Lemma main_no_data_exit_zero_witness :
  Forall (fun d => frame_empty (drop_na_rows (drop_na_cols d)) = true)
         (find_and_parse_tables [mktable (Some [mkframe [HStr "A"%string] [[None]]]) []]) /\
  main (Some [mktable (Some [mkframe [HStr "A"%string] [[None]]]) []]) d2025_01_01 true = mkrun [] 0.
Proof.
  split.
  - vm_compute. repeat constructor.
  - apply main_no_data_exit_zero. vm_compute. repeat constructor.
Defined.

(** C9, counterexample: a table reduced to one cell is not treated as "no
    data".  The placeholder [<table><tr><td>No IPOs today</td></tr></table>]
    is read with the integer label 0 (by [pd.read_html] and by the manual
    fallback alike); [ci_col] then fails on [0.lower()] and the run exits
    with status 1. *)
Lemma main_single_cell_fails :
  main (page_of (mkframe [HInt 0] [[Some "No IPOs today"%string]])) d2025_01_01 true = mkrun [] 1 /\
  main (Some [mktable None [["No IPOs today"%string]]]) d2025_01_01 true = mkrun [] 1.
Proof. vm_compute. split; reflexivity. Qed.

(** ** C7: the column resolver *)

Lemma mapM_lower_str (cols : list string) :
  mapM (fun c => let* l := header_lower c in Ok (l, c)) (map HStr cols)
  = Ok (map (fun c => (lower c, HStr c)) cols).
Proof. induction cols as [|x cols IH]; simpl; [reflexivity | now rewrite IH]. Qed.

Lemma existsb_false_forallb {A} (f : A -> bool) (l : list A) :
  existsb f l = false -> forallb (fun x => negb (f x)) l = true.
Proof.
  induction l as [|x l IH]; simpl; [reflexivity|].
  destruct (f x); simpl; [discriminate | exact IH].
Qed.

Lemma dict_get_none (k : string) (cols : list string) :
  forallb (fun x => negb (String.eqb k (lower x))) cols = true ->
  dict_get k (map (fun c => (lower c, HStr c)) cols) = None.
Proof.
  induction cols as [|x cols IH]; simpl; [reflexivity|].
  intro H. apply andb_true_iff in H as [H1 H2]. rewrite (IH H2).
  apply negb_true_iff in H1. now rewrite H1.
Qed.

(** The dict keeps the last column with a given lower-cased label. *)
Lemma dict_get_last (k : string) (pre post : list string) (c : string) :
  String.eqb k (lower c) = true ->
  forallb (fun x => negb (String.eqb k (lower x))) post = true ->
  dict_get k (map (fun c => (lower c, HStr c)) (pre ++ c :: post)) = Some (HStr c).
Proof.
  intros Hc Hpost. induction pre as [|x pre IH]; simpl.
  - rewrite (dict_get_none k post Hpost). now rewrite Hc.
  - now rewrite IH.
Qed.

Lemma last_split (k : string) (cols : list string) :
  existsb (fun x => String.eqb k (lower x)) cols = true ->
  exists pre c post, cols = pre ++ c :: post /\ String.eqb k (lower c) = true /\
    forallb (fun x => negb (String.eqb k (lower x))) post = true.
Proof.
  induction cols as [|x cols IH]; simpl; [discriminate|]. intro H.
  destruct (existsb (fun x => String.eqb k (lower x)) cols) eqn:E.
  - destruct (IH eq_refl) as (pre & c & post & -> & Hc & Hp).
    exists (x :: pre), c, post. auto.
  - rewrite orb_false_r in H. exists [], x, cols. split; [reflexivity|].
    split; [exact H|]. now apply existsb_false_forallb.
Qed.

Lemma first_some_skip {A B} (g : A -> option B) (pre l : list A) :
  Forall (fun a => g a = None) pre -> first_some g (pre ++ l) = first_some g l.
Proof. induction 1 as [|a pre Ha _ IH]; simpl; [reflexivity | now rewrite Ha]. Qed.

Lemma find_first {A} (f : A -> bool) (pre post : list A) (c : A) :
  forallb (fun x => negb (f x)) pre = true -> f c = true -> find f (pre ++ c :: post) = Some c.
Proof.
  intros Hpre Hc. induction pre as [|x pre IH]; simpl in *; [now rewrite Hc|].
  apply andb_true_iff in Hpre as [H1 H2]. apply negb_true_iff in H1. rewrite H1. exact (IH H2).
Qed.

Lemma find_none {A} (f : A -> bool) (l : list A) :
  forallb (fun x => negb (f x)) l = true -> find f l = None.
Proof.
  induction l as [|x l IH]; simpl; [reflexivity|].
  intro H. apply andb_true_iff in H as [H1 H2]. apply negb_true_iff in H1. rewrite H1. exact (IH H2).
Qed.

Lemma find_HStr (cands cols : list string) :
  find (fun col => existsb (fun cand => contains (lower cand) (lower (header_str col))) cands) (map HStr cols)
  = option_map HStr (find (ci_contains_any cands) cols).
Proof.
  induction cols as [|x cols IH]; simpl; [reflexivity|].
  rewrite IH. unfold ci_contains_any. destruct (existsb _ _); reflexivity.
Qed.

Lemma no_exact_dict_get (cols : list string) (a : string) :
  negb (existsb (ci_eq a) cols) = true ->
  dict_get (lower a) (map (fun c => (lower c, HStr c)) cols) = None.
Proof.
  intro H. apply negb_true_iff in H. apply dict_get_none.
  exact (existsb_false_forallb _ _ H).
Qed.

Lemma no_exact_all (cols cands : list string) :
  forallb (fun a => negb (existsb (ci_eq a) cols)) cands = true ->
  Forall (fun a => dict_get (lower a) (map (fun c => (lower c, HStr c)) cols) = None) cands.
Proof.
  intro H. apply Forall_forall. intros a Ha.
  apply no_exact_dict_get. exact (proj1 (forallb_forall _ _) H a Ha).
Qed.

(** For a table whose labels are all strings, duplicated
    or blank ones included, [ci_col] returns without raising.  If some
    alias equals a label case-insensitively, the result is decided by the
    earliest such alias in the alias list (not by the column order): it is
    the LAST column whose label equals that alias case-insensitively.
    Otherwise it is the first column whose label contains some alias as a
    case-insensitive substring, and otherwise absent. *)
Theorem ci_col_string_headers (cols cands : list string) :
  (exists r, ci_col (map HStr cols) cands = Ok r) /\
  (forall apre cand apost, cands = apre ++ cand :: apost ->
     forallb (fun a => negb (existsb (ci_eq a) cols)) apre = true ->
     existsb (ci_eq cand) cols = true ->
     exists cpre c cpost, cols = cpre ++ c :: cpost /\ ci_eq cand c = true /\
       forallb (fun x => negb (ci_eq cand x)) cpost = true /\
       ci_col (map HStr cols) cands = Ok (Some (HStr c))) /\
  (forallb (fun a => negb (existsb (ci_eq a) cols)) cands = true ->
     (forall cpre c cpost, cols = cpre ++ c :: cpost -> ci_contains_any cands c = true ->
        forallb (fun x => negb (ci_contains_any cands x)) cpre = true ->
        ci_col (map HStr cols) cands = Ok (Some (HStr c))) /\
     (forallb (fun x => negb (ci_contains_any cands x)) cols = true ->
        ci_col (map HStr cols) cands = Ok None)).
Proof.
  unfold ci_col. rewrite mapM_lower_str. cbn [bind].
  split; [|split].
  - destruct (first_some _ _); eexists; reflexivity.
  - intros apre cand apost -> Hpre Hex.
    destruct (last_split (lower cand) cols Hex) as (cpre & c & cpost & Hcols & Hc & Hpost).
    exists cpre, c, cpost. split; [exact Hcols|]. split; [exact Hc|]. split; [exact Hpost|].
    rewrite first_some_skip by exact (no_exact_all cols apre Hpre). simpl.
    rewrite Hcols, (dict_get_last _ cpre cpost c Hc Hpost). reflexivity.
  - intro Hnone. pose proof (no_exact_all cols cands Hnone) as Hn.
    assert (E : first_some (fun cand => dict_get (lower cand) (map (fun c => (lower c, HStr c)) cols)) cands = None).
    { rewrite <- (app_nil_r cands), first_some_skip by exact Hn. reflexivity. }
    rewrite E, find_HStr. split.
    + intros cpre c cpost Hcols Hc Hpre. rewrite Hcols, (find_first _ cpre cpost c Hpre Hc). reflexivity.
    + intro H. now rewrite (find_none _ cols H).
Qed.

Lemma ci_col_string_headers_witness :
  (exists cpre c cpost, ["Company"; "Name"]%string = cpre ++ c :: cpost /\ ci_eq "Name" c = true /\
     forallb (fun x => negb (ci_eq "Name" x)) cpost = true /\
     ci_col (map HStr ["Company"; "Name"]%string) name_aliases = Ok (Some (HStr c))) /\
  ci_col (map HStr ["Company Name"; "Issue Size"]%string) name_aliases = Ok (Some (HStr "Company Name"%string)).
Proof.
  split.
  - apply (proj1 (proj2 (ci_col_string_headers ["Company"; "Name"]%string name_aliases))
             [] "Name"%string ["Company"; "Issue Name"]%string); vm_compute; reflexivity.
  - apply (proj1 (proj2 (proj2 (ci_col_string_headers ["Company Name"; "Issue Size"]%string name_aliases)) ltac:(vm_compute; reflexivity))
             [] "Company Name"%string ["Issue Size"]%string); vm_compute; reflexivity.
Defined.

(** C7.  [ci_col] builds its exact-match dictionary with [c.lower()],
    without the [str()] that its substring phase applies to each label, so
    an integer label (pandas numbers the columns of a table read without a
    header row) makes it raise AttributeError.  With all-string labels it
    does not raise ([ci_col_string_headers]); its exact phase follows the
    alias list and, of labels equal up to case, keeps the later one: with
    the labels "Company" and "Name" it picks "Name", with "Name" and
    "NAME" it picks "NAME". *)
Lemma ci_col_int_label_raises :
  ci_col [HStr "Company"%string; HInt 0] name_aliases = Raise AttributeError /\
  ci_col [HInt 0; HStr "Company"%string] name_aliases = Raise AttributeError /\
  ci_col [HStr "Company"%string; HStr "Name"%string] name_aliases = Ok (Some (HStr "Name"%string)) /\
  ci_col [HStr "Name"%string; HStr "NAME"%string] name_aliases = Ok (Some (HStr "NAME"%string)).
Proof. vm_compute. repeat split. Qed.

(** ** The sort, the ranks and the filter *)

Lemma pf_leb_total (x y : pyfloat) :
  not_nan x = true -> not_nan y = true -> pf_leb x y = false -> pf_leb y x = true.
Proof.
  destruct x as [a|[]|], y as [b|[]|]; simpl; intros Hx Hy H; try reflexivity; try discriminate.
  apply Qle_bool_iff. apply Qlt_le_weak. apply Qnot_le_lt. intro Hle.
  apply Qle_bool_iff in Hle. congruence.
Qed.

Lemma Forall_perm {A} (P : A -> Prop) (l l' : list A) :
  Permutation l l' -> Forall P l -> Forall P l'.
Proof.
  intros Hp H. apply Forall_forall. intros x Hx.
  apply (proj1 (Forall_forall P l) H). apply Permutation_in with l'; [symmetry; exact Hp | exact Hx].
Qed.

Lemma insert_desc_perm (x : std_row) (l : list std_row) : Permutation (insert_desc x l) (x :: l).
Proof.
  induction l as [|y l IH]; simpl; [reflexivity|].
  destruct (pf_leb (s_sort x) (s_sort y)); [|reflexivity].
  etransitivity; [apply perm_skip, IH | apply perm_swap].
Qed.

Lemma sort_desc_fold_perm (l acc : list std_row) :
  Permutation (fold_left (fun acc x => insert_desc x acc) l acc) (acc ++ l).
Proof.
  revert acc. induction l as [|x l IH]; intro acc; simpl.
  - rewrite app_nil_r. reflexivity.
  - etransitivity; [apply IH|]. etransitivity; [apply Permutation_app_tail, insert_desc_perm|].
    simpl. apply Permutation_middle.
Qed.

Lemma sort_desc_perm (l : list std_row) : Permutation (sort_desc l) l.
Proof. exact (sort_desc_fold_perm l []). Qed.

Lemma insert_desc_sorted (x : std_row) (l : list std_row) :
  not_nan (s_sort x) = true -> Forall (fun r => not_nan (s_sort r) = true) l ->
  Sorted desc l -> Sorted desc (insert_desc x l).
Proof.
  intros Hx. induction l as [|y l IH]; intros Hl Hs; simpl; [repeat constructor|].
  inversion Hl as [|? ? Hy Hl']; subst. inversion Hs as [|? ? Hs' Hhd]; subst.
  destruct (pf_leb (s_sort x) (s_sort y)) eqn:E.
  - constructor; [exact (IH Hl' Hs')|].
    destruct l as [|z l]; simpl; [constructor; exact E|].
    destruct (pf_leb (s_sort x) (s_sort z)); constructor; [inversion Hhd; assumption | exact E].
  - constructor; [constructor; assumption|]. constructor.
    exact (pf_leb_total _ _ Hx Hy E).
Qed.

Lemma sort_desc_sorted (l : list std_row) :
  Forall (fun r => not_nan (s_sort r) = true) l -> Sorted desc (sort_desc l).
Proof.
  unfold sort_desc. assert (Hacc : Sorted desc (@nil std_row) /\ Forall (fun r => not_nan (s_sort r) = true) (@nil std_row))
    by (split; constructor).
  revert Hacc. generalize (@nil std_row) as acc. induction l as [|x l IH]; intros acc [Hs Ha] Hl; simpl; [exact Hs|].
  inversion Hl as [|? ? Hx Hl']; subst. apply IH; [split|exact Hl'].
  - exact (insert_desc_sorted x acc Hx Ha Hs).
  - apply Forall_perm with (x :: acc); [symmetry; apply insert_desc_perm | constructor; assumption].
Qed.

Lemma number_from_ranks (n : nat) (l : list std_row) :
  map s_rank (number_from n l) = seq n (length l).
Proof. revert n. induction l as [|x l IH]; intro n; simpl; [reflexivity | now rewrite IH]. Qed.

Lemma number_from_length (n : nat) (l : list std_row) : length (number_from n l) = length l.
Proof. revert n. induction l as [|x l IH]; intro n; simpl; [reflexivity | now rewrite IH]. Qed.

Lemma number_from_map {B} (g : std_row -> B) (n : nat) (l : list std_row) :
  (forall k r, g (with_rank k r) = g r) -> map g (number_from n l) = map g l.
Proof.
  intro Hg. revert n. induction l as [|x l IH]; intro n; simpl; [reflexivity|]. now rewrite Hg, IH.
Qed.

Lemma Sorted_map_sort (l : list std_row) : Sorted desc l -> Sorted desc_key (map s_sort l).
Proof.
  induction 1 as [|x l _ IH Hhd]; simpl; constructor; [exact IH|].
  inversion Hhd; simpl; constructor; assumption.
Qed.

Lemma mapM_Forall2 {A B} (f : A -> result B) (l : list A) (l' : list B) :
  mapM f l = Ok l' -> Forall2 (fun x y => f x = Ok y) l l'.
Proof.
  revert l'. induction l as [|x l IH]; intros l' H; simpl in H.
  - injection H as <-. constructor.
  - destruct (f x) as [y|e] eqn:Ef; simpl in H; [|discriminate].
    destruct (mapM f l) as [ys|e] eqn:Em; simpl in H; [|discriminate].
    injection H as <-. constructor; [exact Ef | exact (IH ys eq_refl)].
Qed.

Lemma Forall2_Forall_r {A B} (R : A -> B -> Prop) (P : B -> Prop) (l : list A) (l' : list B) :
  (forall x y, R x y -> P y) -> Forall2 R l l' -> Forall P l'.
Proof. intros H. induction 1; constructor; eauto. Qed.

Lemma prep_row_not_nan (today : date) (w : raw_row) (x : std_row) :
  prep_row today w = Ok x -> s_size_num x <> Some PNaN.
Proof.
  unfold prep_row. destruct (parse_size_to_cr (r_size w)) as [v|e]; simpl; [|discriminate].
  intro H. injection H as <-. simpl. destruct v as [[q|b|]|]; congruence.
Qed.

Lemma size_sort_column_not_nan (l : list std_row) :
  Forall (fun r => s_size_num r <> Some PNaN) l ->
  Forall (fun r => not_nan (s_sort r) = true) (size_sort_column l).
Proof.
  intro H. unfold size_sort_column. destruct (forallb _ l).
  - apply Forall_map. eapply Forall_impl; [|exact H]. intros r Hr. cbv beta in *. unfold with_sort. cbn [s_sort].
    destruct (s_size_num r) as [[q|b|]|]; simpl; congruence.
  - apply Forall_map. apply Forall_forall. intros; reflexivity.
Qed.

Lemma size_sort_column_map {B} (g : std_row -> B) (l : list std_row) :
  (forall k r, g (with_sort k r) = g r) -> map g (size_sort_column l) = map g l.
Proof.
  intro Hg. unfold size_sort_column. destruct (forallb _ l); rewrite map_map;
  apply map_ext; intro r; apply Hg.
Qed.

(** What [normalize_rows] returns: the prepared kept rows, keyed, sorted
    and numbered. *)
Lemma normalize_rows_ok (today : date) (raws : list raw_row) (rs : list std_row) :
  normalize_rows today raws = Ok rs ->
  exists ps, Forall2 (fun w p => prep_row today w = Ok p) (filter keep_row raws) ps /\
             rs = number_from 1 (sort_desc (size_sort_column ps)).
Proof.
  unfold normalize_rows. destruct (mapM (prep_row today) (filter keep_row raws)) as [ps|e] eqn:E;
  simpl; [|discriminate]. intro H. injection H as <-. exists ps. split; [|reflexivity].
  exact (mapM_Forall2 _ _ _ E).
Qed.

(** The ranks after [normalize_df] are 1..n and the sort keys descend. *)
Lemma normalize_rows_ranked (today : date) (raws : list raw_row) (rs : list std_row) :
  normalize_rows today raws = Ok rs ->
  map s_rank rs = seq 1 (length rs) /\ Sorted desc_key (map s_sort rs).
Proof.
  intro H. destruct (normalize_rows_ok today raws rs H) as (ps & Hps & ->). split.
  - rewrite number_from_ranks, number_from_length. reflexivity.
  - rewrite (number_from_map s_sort) by reflexivity. apply Sorted_map_sort, sort_desc_sorted.
    apply size_sort_column_not_nan. eapply Forall2_Forall_r; [|exact Hps].
    intros w p. apply prep_row_not_nan.
Qed.

(** ** Maps that keep the sort key commute with the sort *)

Section Commute.

Variable e : std_row -> std_row.
Hypothesis e_sort : forall r, s_sort (e r) = s_sort r.
Hypothesis e_size : forall r, s_size_num (e r) = s_size_num r.
Hypothesis e_with_sort : forall k r, e (with_sort k r) = with_sort k (e r).
Hypothesis e_with_rank : forall k r, e (with_rank k r) = with_rank k (e r).

Lemma map_insert_desc (x : std_row) (l : list std_row) :
  map e (insert_desc x l) = insert_desc (e x) (map e l).
Proof.
  induction l as [|y l IH]; simpl; [reflexivity|].
  rewrite !e_sort. destruct (pf_leb (s_sort x) (s_sort y)); simpl; [now rewrite IH | reflexivity].
Qed.

Lemma map_sort_desc (l : list std_row) : map e (sort_desc l) = sort_desc (map e l).
Proof.
  unfold sort_desc. change (@nil std_row) with (map e []) at 2. generalize (@nil std_row) as acc.
  induction l as [|x l IH]; intro acc; simpl; [reflexivity|]. now rewrite IH, map_insert_desc.
Qed.

Lemma map_size_sort_column (l : list std_row) :
  map e (size_sort_column l) = size_sort_column (map e l).
Proof.
  unfold size_sort_column.
  assert (Hf : forall f : option pyfloat -> bool,
            forallb (fun r => f (s_size_num r)) (map e l) = forallb (fun r => f (s_size_num r)) l).
  { intro f. induction l as [|x l IH]; simpl; [reflexivity|]. now rewrite e_size, IH. }
  rewrite (Hf (fun o => match o with Some _ => true | None => false end)).
  destruct (forallb _ l); rewrite !map_map; apply map_ext; intro r; now rewrite e_with_sort, ?e_size.
Qed.

Lemma map_number_from (n : nat) (l : list std_row) : map e (number_from n l) = number_from n (map e l).
Proof. revert n. induction l as [|x l IH]; intro n; simpl; [reflexivity|]. now rewrite e_with_rank, IH. Qed.

End Commute.

Lemma filter_Forall2 {A B} (f : A -> bool) (g : B -> bool) (R : A -> B -> Prop) (l : list A) (l' : list B) :
  (forall x y, R x y -> f x = g y) -> Forall2 R l l' -> Forall2 R (filter f l) (filter g l').
Proof.
  intros H. induction 1 as [|x y l l' Hxy _ IH]; simpl; [constructor|].
  rewrite (H x y Hxy). destruct (g y); [constructor; assumption | exact IH].
Qed.

Lemma prep_row_set_gmp (today : date) (g : option string) (w : raw_row) (x : std_row) :
  prep_row today w = Ok x ->
  exists x', prep_row today (set_raw_gmp g w) = Ok x' /\ erase_gmp x' = erase_gmp x.
Proof.
  unfold prep_row. simpl. destruct (parse_size_to_cr (r_size w)) as [v|e']; simpl; [|discriminate].
  intro H. injection H as <-. eexists; split; reflexivity.
Qed.

Lemma prep_rows_same_but_gmp (today : date) (ws ws' : list raw_row) (ps : list std_row) :
  Forall2 same_but_gmp ws ws' -> Forall2 (fun w p => prep_row today w = Ok p) ws ps ->
  exists ps', mapM (prep_row today) ws' = Ok ps' /\ map erase_gmp ps' = map erase_gmp ps.
Proof.
  intros H. revert ps. induction H as [|w w' ws ws' Hw _ IH]; intros ps Hp; inversion Hp as [|? p ? ps0 Hwp Hps]; subst.
  - exists []. split; reflexivity.
  - destruct (IH ps0 Hps) as (ps' & Hm & He).
    destruct (prep_row_set_gmp today (r_gmp w') w p Hwp) as (x' & Hx & Hex).
    unfold same_but_gmp in Hw. rewrite Hw in Hx.
    exists (x' :: ps'). simpl. rewrite Hx, Hm. simpl. split; [reflexivity|]. now rewrite Hex, He.
Qed.

(** Changing premium cells changes nothing but the premium texts of the
    normalised rows: same rows, same order, same ranks. *)
Lemma normalize_rows_same_but_gmp (today : date) (raws raws' : list raw_row) (rs : list std_row) :
  normalize_rows today raws = Ok rs -> Forall2 same_but_gmp raws raws' ->
  exists rs', normalize_rows today raws' = Ok rs' /\ map erase_gmp rs' = map erase_gmp rs.
Proof.
  intros H Hr. destruct (normalize_rows_ok today raws rs H) as (ps & Hps & ->).
  assert (Hk : Forall2 same_but_gmp (filter keep_row raws) (filter keep_row raws')).
  { apply filter_Forall2; [|exact Hr]. intros w w' Hw. unfold same_but_gmp in Hw. now rewrite <- Hw. }
  destruct (prep_rows_same_but_gmp today _ _ ps Hk Hps) as (ps' & Hm & He).
  exists (number_from 1 (sort_desc (size_sort_column ps'))). split.
  - unfold normalize_rows. rewrite Hm. reflexivity.
  - rewrite !(map_number_from erase_gmp) by reflexivity.
    rewrite !(map_sort_desc erase_gmp) by reflexivity.
    rewrite !(map_size_sort_column erase_gmp) by reflexivity.
    now rewrite He.
Qed.

(** When every size parses, the sort key of each row is its size. *)
Lemma normalize_rows_key_is_size (today : date) (raws : list raw_row) (rs : list std_row) :
  normalize_rows today raws = Ok rs ->
  Forall (fun r => s_size_num r <> None) rs -> Forall (fun r => s_size_num r = Some (s_sort r)) rs.
Proof.
  intros H Hall. destruct (normalize_rows_ok today raws rs H) as (ps & _ & ->).
  assert (Hps : Forall (fun r => s_size_num r <> None) ps).
  { apply (Forall_map s_size_num (fun o => o <> None)).
    apply (Forall_map s_size_num (fun o => o <> None)) in Hall.
    rewrite (number_from_map s_size_num) in Hall by reflexivity.
    apply Forall_perm with (map s_size_num (sort_desc (size_sort_column ps))).
    - rewrite <- (size_sort_column_map s_size_num ps) by reflexivity.
      apply Permutation_map, sort_desc_perm.
    - exact Hall. }
  assert (Hfa : forallb (fun r => match s_size_num r with Some _ => true | None => false end) ps = true).
  { apply forallb_forall. intros r Hr. rewrite Forall_forall in Hps. specialize (Hps r Hr).
    destruct (s_size_num r); [reflexivity | congruence]. }
  apply (Forall_map (fun r => (s_size_num r, s_sort r)) (fun p => fst p = Some (snd p))).
  rewrite (number_from_map (fun r => (s_size_num r, s_sort r))) by reflexivity.
  apply Forall_perm with (map (fun r => (s_size_num r, s_sort r)) (size_sort_column ps));
    [apply Permutation_map; symmetry; apply sort_desc_perm|].
  unfold size_sort_column. rewrite Hfa, map_map. apply Forall_map.
  eapply Forall_impl; [|exact Hps]. intros r Hr. cbv beta in *. simpl. destruct (s_size_num r); [reflexivity | congruence].
Qed.

(** ** C1: the order of the records *)

(** C1.  [normalize_df] computes no weighted score.  After
    it, the ranks are 1..n in row order and the sort keys descend; when
    every size parses, the key of each row is its size in crore; and the
    premium cells play no part: with other premium cells the same rows
    come out in the same order with the same ranks.  For two issues of
    500 Cr with a premium of 20 and 450 Cr with a premium of 10, both
    relevant, the ranks are 1 and 2. *)
Theorem normalize_orders_by_size :
  (forall (today : date) (raws : list raw_row) (rs : list std_row),
     normalize_rows today raws = Ok rs ->
     map s_rank rs = seq 1 (length rs) /\
     Sorted desc_key (map s_sort rs) /\
     (Forall (fun r => s_size_num r <> None) rs -> Forall (fun r => s_size_num r = Some (s_sort r)) rs) /\
     (forall raws', Forall2 same_but_gmp raws raws' ->
        exists rs', normalize_rows today raws' = Ok rs' /\ map erase_gmp rs' = map erase_gmp rs)) /\
  (exists rs,
     normalize_df d2025_01_01
       (ipo_table [["Alpha Ltd"; "500 Cr"; RUPEE_MOJ ++ "20"; "1-Jan"; "3-Jan"];
                   ["Beta Ltd"; "450 Cr"; RUPEE_MOJ ++ "10"; "1-Jan"; "3-Jan"]]%string) = Ok rs /\
     map (fun r => (s_name r, s_rank r)) (filter_relevant d2025_01_01 rs)
       = [("Alpha Ltd"%string, 1); ("Beta Ltd"%string, 2)]).
Proof.
  split.
  - intros today raws rs H.
    destruct (normalize_rows_ranked today raws rs H) as [Hr Hs].
    split; [exact Hr|]. split; [exact Hs|]. split.
    + exact (normalize_rows_key_is_size today raws rs H).
    + intros raws' H'. exact (normalize_rows_same_but_gmp today raws raws' rs H H').
  - eexists. split; [vm_compute; reflexivity | vm_compute; reflexivity].
Qed.

Lemma normalize_orders_by_size_witness :
  exists rs', normalize_rows d2025_01_01
                [row_of "Alpha Ltd" "500 Cr" "" "1-Jan" "3-Jan"; row_of "Beta Ltd" "450 Cr" "" "1-Jan" "3-Jan"]%string
              = Ok rs' /\
              map erase_gmp rs' = map erase_gmp
                (match normalize_rows d2025_01_01
                   [row_of "Alpha Ltd" "500 Cr" "1" "1-Jan" "3-Jan"; row_of "Beta Ltd" "450 Cr" "2" "1-Jan" "3-Jan"]%string
                 with Ok l => l | Raise _ => [] end).
Proof.
  refine (proj2 (proj2 (proj2 (proj1 normalize_orders_by_size d2025_01_01
            [row_of "Alpha Ltd" "500 Cr" "1" "1-Jan" "3-Jan"; row_of "Beta Ltd" "450 Cr" "2" "1-Jan" "3-Jan"]%string
            (match normalize_rows d2025_01_01
               [row_of "Alpha Ltd" "500 Cr" "1" "1-Jan" "3-Jan"; row_of "Beta Ltd" "450 Cr" "2" "1-Jan" "3-Jan"]%string
             with Ok l => l | Raise _ => [] end) _))) _ _).
  - vm_compute. reflexivity.
  - repeat constructor.
Defined.

(** C1, counterexample: issue A of 100 Cr with a premium of 0 and issue B
    of 90 Cr with a premium of 100 (both relevant).  The weighted score of
    the specification puts B first (0.93 against 0.7); the script ranks A
    first. *)
Lemma normalize_ignores_premium :
  (spec_score [(100, 0); (90, 100)]%Q (100, 0)%Q < spec_score [(100, 0); (90, 100)]%Q (90, 100)%Q)%Q /\
  exists rs,
    normalize_df d2025_01_01
      (ipo_table [["A Ltd"; "100 Cr"; RUPEE_MOJ ++ "0"; "1-Jan"; "3-Jan"];
                  ["B Ltd"; "90 Cr"; RUPEE_MOJ ++ "100"; "1-Jan"; "3-Jan"]]%string) = Ok rs /\
    map (fun r => (s_name r, s_rank r)) (filter_relevant d2025_01_01 rs)
      = [("A Ltd"%string, 1); ("B Ltd"%string, 2)].
Proof.
  split.
  - unfold Qlt. vm_compute. reflexivity.
  - eexists. split; vm_compute; reflexivity.
Qed.

(** ** C3: the ranks of the output *)

Lemma StronglySorted_seq (a n : nat) : StronglySorted lt (seq a n).
Proof.
  revert a. induction n as [|n IH]; intro a; simpl; constructor; [apply IH|].
  apply Forall_forall. intros k Hk. apply in_seq in Hk. lia.
Qed.

Lemma StronglySorted_filter_ranks (f : std_row -> bool) (l : list std_row) :
  StronglySorted lt (map s_rank l) -> StronglySorted lt (map s_rank (filter f l)).
Proof.
  induction l as [|x l IH]; simpl; intro H; [constructor|].
  inversion H as [|? ? Hl Hx]; subst. destruct (f x); simpl; [|exact (IH Hl)].
  constructor; [exact (IH Hl)|]. apply Forall_forall. intros k Hk.
  apply in_map_iff in Hk as (r & <- & Hr). apply filter_In in Hr as [Hr _].
  rewrite Forall_forall in Hx. apply Hx, in_map, Hr.
Qed.

(** C3.  The ranks are given by [normalize_df], before the
    relevance filter, and are not renumbered: after normalisation they are
    1..n in row order with the size keys descending; the filter keeps a
    subsequence, so the output ranks are strictly increasing and lie in
    1..n, with gaps where rows were dropped. *)
Theorem output_ranks_from_normalize (today : date) (raws : list raw_row) (rs : list std_row) :
  normalize_rows today raws = Ok rs ->
  map s_rank rs = seq 1 (length rs) /\
  Sorted desc_key (map s_sort rs) /\
  StronglySorted lt (map s_rank (filter_relevant today rs)) /\
  Forall (fun k => 1 <= k <= length rs) (map s_rank (filter_relevant today rs)).
Proof.
  intro H. destruct (normalize_rows_ranked today raws rs H) as [Hr Hs].
  split; [exact Hr|]. split; [exact Hs|]. split.
  - apply StronglySorted_filter_ranks. rewrite Hr. apply StronglySorted_seq.
  - apply Forall_forall. intros k Hk. apply in_map_iff in Hk as (r & <- & Hin).
    apply filter_In in Hin as [Hin _]. apply (in_map s_rank) in Hin. rewrite Hr in Hin.
    apply in_seq in Hin. lia.
Qed.

Lemma output_ranks_from_normalize_witness :
  normalize_rows d2025_01_01
    [row_of "A Ltd" "500 Cr" "" "" ""; row_of "B Ltd" "450 Cr" "" "1-Jan" "3-Jan"]%string
  = Ok (match normalize_rows d2025_01_01
               [row_of "A Ltd" "500 Cr" "" "" ""; row_of "B Ltd" "450 Cr" "" "1-Jan" "3-Jan"]%string
        with Ok l => l | Raise _ => [] end) /\
  StronglySorted lt (map s_rank (filter_relevant d2025_01_01
    (match normalize_rows d2025_01_01
               [row_of "A Ltd" "500 Cr" "" "" ""; row_of "B Ltd" "450 Cr" "" "1-Jan" "3-Jan"]%string
     with Ok l => l | Raise _ => [] end))).
Proof.
  assert (H : normalize_rows d2025_01_01
    [row_of "A Ltd" "500 Cr" "" "" ""; row_of "B Ltd" "450 Cr" "" "1-Jan" "3-Jan"]%string
  = Ok (match normalize_rows d2025_01_01
               [row_of "A Ltd" "500 Cr" "" "" ""; row_of "B Ltd" "450 Cr" "" "1-Jan" "3-Jan"]%string
        with Ok l => l | Raise _ => [] end)) by (vm_compute; reflexivity).
  split; [exact H|].
  exact (proj1 (proj2 (proj2 (output_ranks_from_normalize d2025_01_01 _ _ H)))).
Defined.

(** C3, counterexample: of a 500 Cr issue with no dates and a relevant
    450 Cr issue, only the second is output, with its rank 2. *)
Lemma output_rank_gap :
  exists rs,
    normalize_df d2025_01_01
      (ipo_table [["A Ltd"; "500 Cr"; "-"; ""; ""]; ["B Ltd"; "450 Cr"; "-"; "1-Jan"; "3-Jan"]]%string) = Ok rs /\
    map (fun r => (s_name r, s_rank r)) (filter_relevant d2025_01_01 rs) = [("B Ltd"%string, 2)].
Proof. eexists. split; vm_compute; reflexivity. Qed.

(** ** C4: the relevance window *)

Lemma Forall_size_sort_column (P : std_row -> Prop) (l : list std_row) :
  (forall k r, P r -> P (with_sort k r)) -> Forall P l -> Forall P (size_sort_column l).
Proof.
  intros HP H. unfold size_sort_column. destruct (forallb _ l); apply Forall_map;
  eapply Forall_impl; try exact H; intros r Hr; apply HP, Hr.
Qed.

Lemma Forall_number_from (P : std_row -> Prop) (n : nat) (l : list std_row) :
  (forall k r, P r -> P (with_rank k r)) -> Forall P l -> Forall P (number_from n l).
Proof.
  intros HP H. revert n. induction H as [|x l Hx _ IH]; intro n; simpl; constructor; auto.
Qed.

Lemma parse_date_flexible_fill (c : option string) (today : date) :
  parse_date_flexible (Some (fill c)) today = parse_date_flexible c today.
Proof. destruct c; reflexivity. Qed.

(** The parsed dates of a normalised row are those of its (filled) text. *)
Lemma normalize_rows_dates (today : date) (raws : list raw_row) (rs : list std_row) :
  normalize_rows today raws = Ok rs ->
  Forall (fun r => s_close_parsed r = parse_date_flexible (Some (s_close r)) today /\
                   s_open_parsed r = parse_date_flexible (Some (s_open r)) today) rs.
Proof.
  intro H. destruct (normalize_rows_ok today raws rs H) as (ps & Hps & ->).
  apply Forall_number_from; [intros k r Hr; exact Hr|].
  apply Forall_perm with (size_sort_column ps); [symmetry; apply sort_desc_perm|].
  apply Forall_size_sort_column; [intros k r Hr; exact Hr|].
  eapply Forall2_Forall_r; [|exact Hps]. intros w p Hp.
  unfold prep_row in Hp. destruct (parse_size_to_cr (r_size w)); simpl in Hp; [|discriminate].
  injection Hp as <-. cbn [s_close_parsed s_open_parsed s_close s_open]. rewrite !parse_date_flexible_fill. split; reflexivity.
Qed.

(** C4.  A normalised row is kept by [filter_relevant] if and
    only if its close text parses to a date from yesterday to today + 5
    days, or its open text parses to a date after today; a text that does
    not parse counts as no date, and the filter does not fail.  A row
    closing on 15-Mar (2025-03-15 when today is 2025-01-01) and without an
    open date is excluded. *)
Theorem filter_relevant_iff :
  (forall (today : date) (raws : list raw_row) (rs : list std_row),
     normalize_rows today raws = Ok rs ->
     forall r, In r (filter_relevant today rs) <->
       In r rs /\
       ((exists d, parse_date_flexible (Some (s_close r)) today = Some d /\
                   (toordinal today - 1 <= toordinal d <= toordinal today + 5)%Z) \/
        (exists d, parse_date_flexible (Some (s_open r)) today = Some d /\
                   (toordinal today < toordinal d)%Z))) /\
  parse_date_flexible (Some "15-Mar"%string) d2025_01_01 = Some (mkdate 2025 3 15) /\
  (exists rs,
     normalize_df d2025_01_01 (ipo_table [["A Ltd"; "500 Cr"; "-"; ""; "15-Mar"]]%string) = Ok rs /\
     length rs = 1 /\ filter_relevant d2025_01_01 rs = []).
Proof.
  split; [|split; [vm_compute; reflexivity | eexists; split; [vm_compute; reflexivity | split; vm_compute; reflexivity]]].
  intros today raws rs H r. pose proof (normalize_rows_dates today raws rs H) as Hd.
  unfold filter_relevant. rewrite filter_In.
  split; intros [Hin Hrel]; split; try exact Hin;
  rewrite Forall_forall in Hd; destruct (Hd r Hin) as [Hc Ho]; rewrite <- Hc, <- Ho in *;
  unfold relevant, close_in_window, open_in_future in *.
  - apply orb_true_iff in Hrel as [Hc' | Ho'].
    + left. destruct (s_close_parsed r) as [d|]; [|discriminate]. exists d. split; [reflexivity|].
      apply andb_true_iff in Hc' as [H1 H2]. apply Z.leb_le in H1, H2. lia.
    + right. destruct (s_open_parsed r) as [d|]; [|discriminate]. exists d. split; [reflexivity|].
      apply Z.ltb_lt in Ho'. exact Ho'.
  - apply orb_true_iff. destruct Hrel as [(d & Hd' & H1 & H2) | (d & Hd' & H1)]; rewrite Hd'.
    + left. apply andb_true_iff. split; apply Z.leb_le; lia.
    + right. apply Z.ltb_lt. exact H1.
Qed.

Lemma filter_relevant_iff_witness :
  normalize_rows d2025_01_01 [row_of "B Ltd" "450 Cr" "" "1-Jan" "3-Jan"]%string
  = Ok (match normalize_rows d2025_01_01 [row_of "B Ltd" "450 Cr" "" "1-Jan" "3-Jan"]%string
        with Ok l => l | Raise _ => [] end) /\
  forall r, In r (filter_relevant d2025_01_01
                   (match normalize_rows d2025_01_01 [row_of "B Ltd" "450 Cr" "" "1-Jan" "3-Jan"]%string
                    with Ok l => l | Raise _ => [] end)) <->
    In r (match normalize_rows d2025_01_01 [row_of "B Ltd" "450 Cr" "" "1-Jan" "3-Jan"]%string
          with Ok l => l | Raise _ => [] end) /\
    ((exists d, parse_date_flexible (Some (s_close r)) d2025_01_01 = Some d /\
                (toordinal d2025_01_01 - 1 <= toordinal d <= toordinal d2025_01_01 + 5)%Z) \/
     (exists d, parse_date_flexible (Some (s_open r)) d2025_01_01 = Some d /\
                (toordinal d2025_01_01 < toordinal d)%Z)).
Proof.
  assert (H : normalize_rows d2025_01_01 [row_of "B Ltd" "450 Cr" "" "1-Jan" "3-Jan"]%string
    = Ok (match normalize_rows d2025_01_01 [row_of "B Ltd" "450 Cr" "" "1-Jan" "3-Jan"]%string
          with Ok l => l | Raise _ => [] end)) by (vm_compute; reflexivity).
  split; [exact H|]. exact (proj1 filter_relevant_iff d2025_01_01 _ _ H).
Defined.

(** ** C10: rows whose size does not parse *)

(** C10.  [fillna("")] turns a missing size into "", on which
    [float] raises in the key lambda; the [except] then sets every key to
    0.0, so one unparseable size cancels the size order of the whole table
    (the comment "NaN -> 0" intends a key 0 for that row only).  A row of
    size "-" given before a 500 Cr row is ranked 1 and the 500 Cr row 2. *)
Theorem unparsed_size_zeroes_all_keys :
  exists rs,
    normalize_df d2025_01_01
      (ipo_table [["A Ltd"; "-"; "-"; "1-Jan"; "3-Jan"]; ["B Ltd"; "500 Cr"; "-"; "1-Jan"; "3-Jan"]]%string) = Ok rs /\
    map (fun r => (s_name r, s_size_num r, s_sort r, s_rank r)) (filter_relevant d2025_01_01 rs)
      = [("A Ltd"%string, None, PFin 0, 1); ("B Ltd"%string, Some (PFin 500), PFin 0, 2)].
Proof. eexists. split; vm_compute; reflexivity. Qed.

(** ** C2: no size or premium threshold *)

Lemma perm_filter {A} (f : A -> bool) (l l' : list A) :
  Permutation l l' -> Permutation (filter f l) (filter f l').
Proof.
  induction 1 as [|x l l' _ IH|x y l|l l' l'' _ IH1 _ IH2]; simpl.
  - constructor.
  - destruct (f x); [apply perm_skip|]; exact IH.
  - destruct (f x), (f y); try constructor; reflexivity.
  - etransitivity; eassumption.
Qed.

Lemma map_erase_filter_relevant (today : date) (l : list std_row) :
  map erase_size_gmp (filter (relevant today) l) = filter (relevant today) (map erase_size_gmp l).
Proof.
  induction l as [|x l IH]; simpl; [reflexivity|].
  change (relevant today (erase_size_gmp x)) with (relevant today x).
  destruct (relevant today x); simpl; [now rewrite IH | exact IH].
Qed.

Lemma erase_pipeline (today : date) (ps : list std_row) :
  Permutation (map erase_size_gmp (filter_relevant today (number_from 1 (sort_desc (size_sort_column ps)))))
              (filter (relevant today) (map erase_size_gmp ps)).
Proof.
  unfold filter_relevant. rewrite map_erase_filter_relevant. apply perm_filter.
  rewrite (number_from_map erase_size_gmp) by reflexivity.
  rewrite <- (size_sort_column_map erase_size_gmp ps) by reflexivity.
  apply Permutation_map, sort_desc_perm.
Qed.

Lemma prep_row_erase (today : date) (w w' : raw_row) (x x' : std_row) :
  same_but_size_gmp w w' -> prep_row today w = Ok x -> prep_row today w' = Ok x' ->
  erase_size_gmp x = erase_size_gmp x'.
Proof.
  intros (H1 & H2 & H3 & H4 & H5). unfold prep_row.
  destruct (parse_size_to_cr (r_size w)); simpl; [|discriminate].
  destruct (parse_size_to_cr (r_size w')); simpl; [|discriminate].
  intros Hx Hx'. injection Hx as <-. injection Hx' as <-. unfold erase_size_gmp; simpl.
  now rewrite H1, H2, H3, H4, H5.
Qed.

Lemma prep_rows_erase (today : date) (ws ws' : list raw_row) (ps ps' : list std_row) :
  Forall2 same_but_size_gmp ws ws' ->
  Forall2 (fun w p => prep_row today w = Ok p) ws ps ->
  Forall2 (fun w p => prep_row today w = Ok p) ws' ps' ->
  map erase_size_gmp ps = map erase_size_gmp ps'.
Proof.
  intros H. revert ps ps'. induction H as [|w w' ws ws' Hw _ IH]; intros ps ps' Hp Hp';
  inversion Hp; inversion Hp'; subst; simpl; [reflexivity|].
  f_equal; [eapply prep_row_erase; eassumption | apply IH; assumption].
Qed.

(** C2.  There is no size or premium threshold and nothing to
    configure: of two tables whose rows differ only in their size and
    premium cells (and that both normalise), the same issues are output,
    up to their order. *)
Theorem relevance_ignores_size_gmp (today : date) (raws raws' : list raw_row) (rs rs' : list std_row) :
  Forall2 same_but_size_gmp raws raws' ->
  normalize_rows today raws = Ok rs -> normalize_rows today raws' = Ok rs' ->
  Permutation (map ident (filter_relevant today rs)) (map ident (filter_relevant today rs')).
Proof.
  intros Hr H H'.
  destruct (normalize_rows_ok today raws rs H) as (ps & Hps & ->).
  destruct (normalize_rows_ok today raws' rs' H') as (ps' & Hps' & ->).
  assert (Hk : Forall2 same_but_size_gmp (filter keep_row raws) (filter keep_row raws')).
  { apply filter_Forall2; [|exact Hr]. intros w w' (H1 & _ & _ & _ & H5).
    unfold keep_row. now rewrite H1, H5. }
  pose proof (prep_rows_erase today _ _ ps ps' Hk Hps Hps') as He.
  assert (Hid : forall l, map ident l = map ident (map erase_size_gmp l))
    by (intro l; rewrite map_map; reflexivity).
  rewrite (Hid (filter_relevant today _)), (Hid (filter_relevant today (number_from 1 _))).
  apply Permutation_map. etransitivity; [apply erase_pipeline|].
  rewrite He. symmetry. apply erase_pipeline.
Qed.

Lemma relevance_ignores_size_gmp_witness :
  Permutation
    (map ident (filter_relevant d2025_01_01
       (match normalize_rows d2025_01_01 [row_of "A Ltd" "500 Cr" "-" "1-Jan" "3-Jan"]%string
        with Ok l => l | Raise _ => [] end)))
    (map ident (filter_relevant d2025_01_01
       (match normalize_rows d2025_01_01 [row_of "A Ltd" "1 Cr" "" "1-Jan" "3-Jan"]%string
        with Ok l => l | Raise _ => [] end))).
Proof.
  apply (relevance_ignores_size_gmp d2025_01_01
           [row_of "A Ltd" "500 Cr" "-" "1-Jan" "3-Jan"]%string [row_of "A Ltd" "1 Cr" "" "1-Jan" "3-Jan"]%string).
  - repeat constructor.
  - vm_compute. reflexivity.
  - vm_compute. reflexivity.
Defined.

(** C2, counterexample: an issue of 1 Cr without any premium is output. *)
Lemma tiny_issue_kept :
  exists rs,
    normalize_df d2025_01_01 (ipo_table [["Tiny Ltd"; "1 Cr"; "-"; "1-Jan"; "3-Jan"]]%string) = Ok rs /\
    map (fun r => (s_name r, s_size_num r, s_gmp_display r)) (filter_relevant d2025_01_01 rs)
      = [("Tiny Ltd"%string, Some (PFin 1), gmp_default)].
Proof. eexists. split; vm_compute; reflexivity. Qed.

(** ** C6: the date parser *)

(** *** Characters *)

Lemma cls_digit (c : ascii) : is_digit c = true -> cls c = 0.
Proof. unfold cls. intro H. now rewrite H. Qed.

Lemma cls_space (c : ascii) : is_space c = true -> cls c = 1.
Proof. destruct c as [[] [] [] [] [] [] [] []]; vm_compute; congruence. Qed.

Lemma cls_lower_alpha (c : ascii) : is_alpha (lower_char c) = true -> cls c = 2.
Proof. destruct c as [[] [] [] [] [] [] [] []]; vm_compute; congruence. Qed.

Lemma lower_char_nonalpha (c : ascii) : is_alpha (lower_char c) = false -> lower_char c = c.
Proof. destruct c as [[] [] [] [] [] [] [] []]; vm_compute; congruence. Qed.

Lemma cls_of_lower (k c : ascii) : Ascii.eqb k (lower_char c) = true -> is_alpha k = true -> cls c = 2.
Proof. intros H Hk. apply Ascii.eqb_eq in H. subst k. exact (cls_lower_alpha c Hk). Qed.

Lemma lower_char_dash (c : ascii) : Ascii.eqb (lower_char "-") (lower_char c) = true -> cls c = 3.
Proof.
  intro H. apply Ascii.eqb_eq in H. change (lower_char "-") with "-"%char in H.
  assert (E : lower_char c = c) by (apply lower_char_nonalpha; now rewrite <- H).
  rewrite E in H. now subst c.
Qed.

(** *** Strings read backwards *)

Lemma list_ascii_app (s1 s2 : string) :
  list_ascii_of_string (s1 ++ s2) = list_ascii_of_string s1 ++ list_ascii_of_string s2.
Proof. induction s1 as [|c s1 IH]; simpl; [reflexivity | now rewrite IH]. Qed.

Lemma rtail_app (s1 s2 : string) : rtail (s1 ++ s2) = rtail s2 ++ rtail s1.
Proof. unfold rtail. now rewrite list_ascii_app, rev_app_distr. Qed.

Lemma rtail_cons (c : ascii) (s : string) : rtail (String c s) = rtail s ++ [c].
Proof. reflexivity. Qed.

Lemma string_app_assoc (a b c : string) : ((a ++ b) ++ c = a ++ (b ++ c))%string.
Proof. induction a as [|x a IH]; simpl; [reflexivity | now rewrite IH]. Qed.

Lemma sdrop_suffix (n : nat) (s : string) : exists p, s = (p ++ sdrop n s)%string.
Proof.
  revert s. induction n as [|n IH]; intro s; [exists ""%string; reflexivity|].
  destruct s as [|c s]; [exists ""%string; reflexivity|].
  destruct (IH s) as [p Hp]. exists (String c p). simpl. now rewrite <- Hp.
Qed.

(** *** Paths of the search *)

Lemma first_some_in {A B} (g : A -> option B) (l : list A) (b : B) :
  first_some g l = Some b -> exists a, In a l /\ g a = Some b.
Proof.
  induction l as [|a l IH]; simpl; [discriminate|].
  destruct (g a) eqn:E; intro H.
  - injection H as <-. exists a. auto.
  - destruct (IH H) as (a' & Hin & Ha). exists a'. auto.
Qed.

Lemma rmatch_rm (its : list fmt_item) (s : string) (f f' : fields) (r : string) :
  rmatch its s f = Some (f', r) -> rm its s f f' r.
Proof.
  revert s f. induction its as [|it its IH]; intros s f H; simpl in H.
  - injection H as <- <-. constructor.
  - apply first_some_in in H as ([u r0] & Hin & H). econstructor; [exact Hin | exact (IH _ _ H)].
Qed.

Lemma rm_app (its1 its2 : list fmt_item) (s : string) (f f' : fields) (r : string) :
  rm (its1 ++ its2) s f f' r -> exists f1 s1, rm its1 s f f1 s1 /\ rm its2 s1 f1 f' r.
Proof.
  revert s f. induction its1 as [|it its1 IH]; intros s f H; simpl in H.
  - exists f, s. split; [constructor | exact H].
  - inversion H as [|? ? ? ? u r0 ? ? Hin Hrm]; subst.
    destruct (IH _ _ Hrm) as (f1 & s1 & H1 & H2). exists f1, s1. split; [econstructor; eassumption | exact H2].
Qed.

Lemma ws_alts_in (j : nat) (s : string) (u : fields -> fields) (r : string) :
  In (u, r) (ws_alts_from j s) -> (forall f, u f = f) /\ exists k, 1 <= k <= j /\ r = sdrop k s.
Proof.
  induction j as [|j IH]; simpl; [contradiction|]. intros [H | H].
  - injection H as <- <-. split; [reflexivity|]. exists (S j). split; [lia | reflexivity].
  - destruct (IH H) as [Hu (k & Hk & ->)]. split; [exact Hu|]. exists k. split; [lia | reflexivity].
Qed.

Lemma month_alts_in (names : list (string * Z)) (s : string) (u : fields -> fields) (r : string) :
  In (u, r) (month_alts names s) ->
  exists nm i, In (nm, i) names /\ starts_with nm (lower s) = true /\ u = set_mon i /\
               r = sdrop (String.length nm) s.
Proof.
  unfold month_alts. intro H. apply in_flat_map in H as ([nm i] & Hn & H).
  destruct (starts_with nm (lower s)) eqn:E; [|contradiction].
  destruct H as [H|[]]. injection H as <- <-. exists nm, i. auto.
Qed.

Lemma alts_suffix (it : fmt_item) (s : string) (u : fields -> fields) (r : string) :
  In (u, r) (fmt_alts it s) -> exists p, s = (p ++ r)%string.
Proof.
  intro H; destruct it; cbn [fmt_alts] in H.
  - unfold day_alts in H. destruct s as [|c1 s1]; [contradiction|].
    destruct s1 as [|c2 s2];
    repeat (rewrite in_app_iff in H || match goal with
            | H : In _ (if ?b then _ else _) |- _ => destruct b
            | H : _ \/ _ |- _ => destruct H as [H|H]
            | H : In _ [] |- _ => destruct H
            | H : In _ [_] |- _ => destruct H as [H|[]]
            end);
    try (injection H as _ <-);
    first [ exists (String c1 EmptyString); reflexivity
          | exists (String c1 (String c2 EmptyString)); reflexivity ].
  - apply month_alts_in in H as (nm & i & _ & _ & _ & ->). apply sdrop_suffix.
  - apply month_alts_in in H as (nm & i & _ & _ & _ & ->). apply sdrop_suffix.
  - destruct s as [|a [|b [|c [|d r0]]]]; try contradiction.
    destruct (is_digit a && is_digit b && is_digit c && is_digit d); [|contradiction].
    destruct H as [H|[]]. injection H as _ <-. exists (String a (String b (String c (String d EmptyString)))). reflexivity.
  - destruct s as [|a [|b r0]]; try contradiction.
    destruct (is_digit a && is_digit b); [|contradiction].
    destruct H as [H|[]]. injection H as _ <-. exists (String a (String b EmptyString)). reflexivity.
  - apply ws_alts_in in H as [_ (k & _ & ->)]. apply sdrop_suffix.
  - destruct s as [|d r0]; [contradiction|].
    destruct (Ascii.eqb (lower_char c) (lower_char d)); [|contradiction].
    destruct H as [H|[]]. injection H as _ <-. exists (String d EmptyString). reflexivity.
Qed.

Lemma rm_suffix (its : list fmt_item) (s : string) (f f' : fields) (r : string) :
  rm its s f f' r -> exists p, s = (p ++ r)%string.
Proof.
  induction 1 as [s f|it its s f u r f' r' Hin _ IH].
  - exists ""%string. reflexivity.
  - destruct (alts_suffix it s u r Hin) as [p1 ->]. destruct IH as [p2 ->].
    exists (p1 ++ p2)%string. symmetry. apply string_app_assoc.
Qed.

(** *** Shapes *)

Lemma fits_app (sh : list (list nat)) (l l' : list ascii) : fits sh l -> fits sh (l ++ l').
Proof. intros (l1 & rest & -> & H). exists l1, (rest ++ l'). split; [now rewrite app_assoc | exact H]. Qed.

Lemma fits_compatible (sh1 sh2 : list (list nat)) (l : list ascii) :
  fits sh1 l -> fits sh2 l -> compatible sh1 sh2 = true.
Proof.
  revert sh2 l. induction sh1 as [|cs1 sh1 IH]; intros sh2 l (l1 & r1 & -> & H1) (l2 & r2 & E & H2);
    [reflexivity|].
  destruct sh2 as [|cs2 sh2]; [reflexivity|].
  destruct l1 as [|c l1]; [inversion H1|]. destruct l2 as [|c' l2]; [inversion H2|].
  apply Forall2_cons_iff in H1 as [Hc1 H1]. apply Forall2_cons_iff in H2 as [Hc2 H2].
  simpl in E. injection E as <- E.
  simpl. apply andb_true_intro. split.
  - apply existsb_exists. exists (cls c). split; [exact Hc1|].
    apply existsb_exists. exists (cls c). split; [exact Hc2 | apply Nat.eqb_refl].
  - apply (IH sh2 (l1 ++ r1)); [exists l1, r1; auto | exists l2, r2; auto].
Qed.

Lemma fits_clash (sh1 sh2 : list (list nat)) (s : string) :
  compatible sh1 sh2 = false -> fits sh1 (rtail s) -> fits sh2 (rtail s) -> False.
Proof. intros Hc H1 H2. rewrite (fits_compatible _ _ _ H1 H2) in Hc. discriminate. Qed.

Lemma rm_cons_inv (it : fmt_item) (its : list fmt_item) (s : string) (f f' : fields) (r : string) :
  rm (it :: its) s f f' r -> exists u r0, In (u, r0) (fmt_alts it s) /\ rm its r0 (u f) f' r.
Proof. intro H. inversion H; subst. eauto. Qed.

Lemma rm_nil_inv (s : string) (f f' : fields) (r : string) : rm [] s f f' r -> f' = f /\ r = s.
Proof. intro H. inversion H; subst. auto. Qed.

Lemma ws_drop (k : nat) (s : string) : 1 <= k <= ws_prefix_len s ->
  exists p c, s = (p ++ String c (sdrop k s))%string /\ is_space c = true.
Proof.
  revert s. induction k as [|k IH]; intros s Hk; [lia|].
  destruct s as [|c s]; simpl in Hk; [lia|].
  destruct (is_space c) eqn:Ec; [|lia].
  destruct k as [|k].
  - exists ""%string, c. auto.
  - destruct (IH s) as (p & d & Hs & Hd); [lia|]. exists (String c p), d. split; [|exact Hd].
    change (String c s = String c (p ++ String d (sdrop (S k) s))). now rewrite <- Hs.
Qed.

Lemma ws_inside (k : nat) (s : string) : k < ws_prefix_len s ->
  exists c t, sdrop k s = String c t /\ is_space c = true.
Proof.
  revert s. induction k as [|k IH]; intros s Hk; destruct s as [|c s]; simpl in Hk; try lia;
    destruct (is_space c) eqn:Ec; try lia.
  - exists c, s. auto.
  - simpl. apply IH. lia.
Qed.

Lemma starts_with_full (p t : string) :
  starts_with p t = true -> String.length t <= String.length p -> t = p.
Proof.
  revert t. induction p as [|a p IH]; intros [|b t] H L; simpl in *; try discriminate; try lia; auto.
  apply andb_prop in H as [H1 H2]. apply Ascii.eqb_eq in H1. subst b. f_equal. apply IH; auto; lia.
Qed.

Lemma sdrop_empty (n : nat) (t : string) : sdrop n t = EmptyString -> String.length t <= n.
Proof.
  revert t. induction n as [|n IH]; intros [|c t] H; simpl in *; try lia; try discriminate.
  specialize (IH t H). lia.
Qed.

Lemma length_lower (t : string) : String.length (lower t) = String.length t.
Proof. induction t as [|c t IH]; simpl; auto. Qed.

Lemma lower_alpha_cls (t : string) : forallb is_alpha (list_ascii_of_string (lower t)) = true ->
  Forall (fun c => cls c = 2) (list_ascii_of_string t).
Proof.
  induction t as [|c t IH]; simpl; intro H; constructor.
  - apply andb_prop in H as [H _]. now apply cls_lower_alpha.
  - apply andb_prop in H as [_ H]. auto.
Qed.

Lemma month_alts_full (names : list (string * Z)) (t : string) (u : fields -> fields) :
  alpha_names names = true -> In (u, EmptyString) (month_alts names t) ->
  exists nm i, In (nm, i) names /\ lower t = nm /\ u = set_mon i /\
    Forall (fun c => cls c = 2) (list_ascii_of_string t) /\ 3 <= String.length t.
Proof.
  intros Hn H. apply month_alts_in in H as (nm & i & Hin & Hs & Hu & Hr).
  assert (E : lower t = nm).
  { apply starts_with_full; [exact Hs|]. rewrite length_lower. apply sdrop_empty. symmetry. exact Hr. }
  unfold alpha_names in Hn. rewrite forallb_forall in Hn. specialize (Hn _ Hin). simpl in Hn.
  apply andb_prop in Hn as [Ha Hl].
  exists nm, i. split; [exact Hin|]. split; [exact E|]. split; [exact Hu|]. split.
  - apply lower_alpha_cls. now rewrite E.
  - rewrite <- length_lower, E. apply Nat.leb_le. exact Hl.
Qed.

Lemma strptime_rm (its : list fmt_item) (s : string) (dt : date) :
  strptime its s = Ok dt -> exists f, rm its s no_fields f EmptyString.
Proof.
  unfold strptime. destruct (rmatch its s no_fields) as [[f r]|] eqn:E; [|discriminate].
  destruct (String.eqb r "") eqn:Er; [|discriminate]. apply String.eqb_eq in Er. subst r.
  intros _. exists f. now apply rmatch_rm.
Qed.

Lemma pat_fits (pre tl : list fmt_item) (sh : list (list nat)) (s : string) (f f' : fields) :
  (forall s1 f1 f2, rm tl s1 f1 f2 EmptyString -> fits sh (rtail s1)) ->
  rm (pre ++ tl) s f f' EmptyString -> fits sh (rtail s).
Proof.
  intros Ht H. apply rm_app in H as (f1 & s1 & H1 & H2). destruct (rm_suffix _ _ _ _ _ H1) as [p ->].
  rewrite rtail_app. apply fits_app. eapply Ht; eauto.
Qed.

(** *** What each item of a full match consumes *)

Ltac cls_fact :=
  first [ assumption
        | match goal with H : forall x, In x _ -> cls x = _ |- _ => apply H; simpl; tauto end ].

Ltac fits_close :=
  repeat (apply Forall2_cons;
          [ simpl; first [ left; symmetry; cls_fact | right; left; symmetry; cls_fact ] | ]);
  apply Forall2_nil.

Lemma rm_dash_head (tl : list fmt_item) (s : string) (f f' : fields) :
  rm (FLit "-" :: tl) s f f' EmptyString ->
  exists m t, s = String m t /\ cls m = 3 /\ rm tl t f f' EmptyString.
Proof.
  intro H. apply rm_cons_inv in H as (u & r & H1 & H). cbn [fmt_alts] in H1.
  destruct s as [|m t]; [contradiction|].
  destruct (Ascii.eqb (lower_char "-") (lower_char m)) eqn:Em; [|contradiction].
  destruct H1 as [H1|[]]. injection H1 as <- <-.
  exists m, t. split; [reflexivity|]. split; [now apply lower_char_dash | exact H].
Qed.

Lemma rm_space_head (tl : list fmt_item) (s : string) (f f' : fields) :
  rm (FSpace :: tl) s f f' EmptyString ->
  exists p c t, s = (p ++ String c t)%string /\ cls c = 1 /\ rm tl t f f' EmptyString.
Proof.
  intro H. apply rm_cons_inv in H as (u & r & H1 & H). cbn [fmt_alts] in H1.
  apply ws_alts_in in H1 as [Hu (k & Hk & ->)]. rewrite Hu in H.
  destruct (ws_drop k s Hk) as (p & c & Hs & Hc).
  exists p, c, (sdrop k s). split; [exact Hs|]. split; [now apply cls_space | exact H].
Qed.

Lemma rm_Y4 (t : string) (f f' : fields) : rm [FYear4] t f f' EmptyString ->
  exists a b c d, t = String a (String b (String c (String d EmptyString))) /\
    cls a = 0 /\ cls b = 0 /\ cls c = 0 /\ cls d = 0.
Proof.
  intro H. apply rm_cons_inv in H as (u & r & H1 & H). apply rm_nil_inv in H as [_ <-].
  cbn [fmt_alts] in H1.
  destruct t as [|a [|b [|c [|d r]]]]; try contradiction.
  destruct (is_digit a && is_digit b && is_digit c && is_digit d) eqn:E; [|contradiction].
  destruct H1 as [H1|[]]. injection H1 as _ ->.
  repeat rewrite andb_true_iff in E. destruct E as [[[Ea Eb] Ec] Ed].
  exists a, b, c, d. split; [reflexivity|]. repeat split; apply cls_digit; assumption.
Qed.

Lemma rm_y2 (t : string) (f f' : fields) : rm [FYear2] t f f' EmptyString ->
  exists a b, t = String a (String b EmptyString) /\ cls a = 0 /\ cls b = 0.
Proof.
  intro H. apply rm_cons_inv in H as (u & r & H1 & H). apply rm_nil_inv in H as [_ <-].
  cbn [fmt_alts] in H1.
  destruct t as [|a [|b r]]; try contradiction.
  destruct (is_digit a && is_digit b) eqn:E; [|contradiction].
  destruct H1 as [H1|[]]. injection H1 as _ ->.
  apply andb_prop in E as [Ea Eb].
  exists a, b. split; [reflexivity|]. split; apply cls_digit; assumption.
Qed.

Lemma rm_abbr (t : string) (f f' : fields) : rm [FMonAbbr] t f f' EmptyString ->
  exists x y z, t = String x (String y (String z EmptyString)) /\ cls x = 2 /\ cls y = 2 /\ cls z = 2.
Proof.
  intro H. apply rm_cons_inv in H as (u & r & H1 & H). apply rm_nil_inv in H as [_ <-].
  cbn [fmt_alts] in H1. apply month_alts_full in H1 as (nm & i & Hin & Hl & _ & Hc & _); [|reflexivity].
  assert (L : String.length t = 3).
  { rewrite <- length_lower, Hl. simpl in Hin.
    repeat destruct Hin as [Hin|Hin]; try (injection Hin as <- _; reflexivity); contradiction. }
  destruct t as [|x [|y [|z [|w t]]]]; simpl in L; try lia.
  rewrite Forall_forall in Hc. exists x, y, z. split; [reflexivity|].
  repeat split; apply Hc; simpl; tauto.
Qed.

Lemma rm_full (t : string) (f f' : fields) : rm [FMonFull] t f f' EmptyString ->
  Forall (fun c => cls c = 2) (list_ascii_of_string t) /\ 3 <= String.length t.
Proof.
  intro H. apply rm_cons_inv in H as (u & r & H1 & H). apply rm_nil_inv in H as [_ <-].
  cbn [fmt_alts] in H1. apply month_alts_full in H1 as (nm & i & _ & _ & _ & Hc & Hl); [|reflexivity].
  auto.
Qed.

Lemma length_list_ascii (t : string) : length (list_ascii_of_string t) = String.length t.
Proof. induction t as [|c t IH]; simpl; auto. Qed.

Lemma fits_B (l : list ascii) (c : ascii) :
  Forall (fun c => cls c = 2) l -> 3 <= length l -> cls c = 1 -> fits sh_B_sp (rev l ++ [c]).
Proof.
  intros Hl Hn Hc. apply Forall_rev in Hl. rewrite <- (length_rev l) in Hn.
  rewrite Forall_forall in Hl.
  destruct (rev l) as [|z [|y [|x [|w l']]]]; simpl in Hn; try lia.
  - exists [z; y; x; c], []. split; [reflexivity | fits_close].
  - exists [z; y; x; w], (l' ++ [c]). split; [reflexivity | fits_close].
Qed.

(** *** The shapes of the seven patterns *)

Lemma tail_dash_Y4 (s1 : string) (f1 f2 : fields) :
  rm [FLit "-"; FYear4] s1 f1 f2 EmptyString -> fits sh_Y4_dash (rtail s1).
Proof.
  intro H. apply rm_dash_head in H as (m & t & -> & Hm & H).
  apply rm_Y4 in H as (a & b & c & d & -> & Ha & Hb & Hc & Hd).
  exists [d; c; b; a; m], []. split; [reflexivity | fits_close].
Qed.

Lemma tail_dash_y2 (s1 : string) (f1 f2 : fields) :
  rm [FLit "-"; FYear2] s1 f1 f2 EmptyString -> fits sh_y2_dash (rtail s1).
Proof.
  intro H. apply rm_dash_head in H as (m & t & -> & Hm & H).
  apply rm_y2 in H as (a & b & -> & Ha & Hb).
  exists [b; a; m], []. split; [reflexivity | fits_close].
Qed.

Lemma tail_dash_b (s1 : string) (f1 f2 : fields) :
  rm [FLit "-"; FMonAbbr] s1 f1 f2 EmptyString -> fits sh_b_dash (rtail s1).
Proof.
  intro H. apply rm_dash_head in H as (m & t & -> & Hm & H).
  apply rm_abbr in H as (x & y & z & -> & Hx & Hy & Hz).
  exists [z; y; x; m], []. split; [reflexivity | fits_close].
Qed.

Lemma tail_sp_Y4 (s1 : string) (f1 f2 : fields) :
  rm [FSpace; FYear4] s1 f1 f2 EmptyString -> fits sh_Y4_sp (rtail s1).
Proof.
  intro H. apply rm_space_head in H as (p & sp & t & -> & Hsp & H).
  apply rm_Y4 in H as (a & b & c & d & -> & Ha & Hb & Hc & Hd).
  rewrite rtail_app. apply fits_app.
  exists [d; c; b; a; sp], []. split; [reflexivity | fits_close].
Qed.

Lemma tail_sp_y2 (s1 : string) (f1 f2 : fields) :
  rm [FSpace; FYear2] s1 f1 f2 EmptyString -> fits sh_y2_sp (rtail s1).
Proof.
  intro H. apply rm_space_head in H as (p & sp & t & -> & Hsp & H).
  apply rm_y2 in H as (a & b & -> & Ha & Hb).
  rewrite rtail_app. apply fits_app.
  exists [b; a; sp], []. split; [reflexivity | fits_close].
Qed.

Lemma tail_sp_b (s1 : string) (f1 f2 : fields) :
  rm [FSpace; FMonAbbr] s1 f1 f2 EmptyString -> fits sh_b_sp (rtail s1).
Proof.
  intro H. apply rm_space_head in H as (p & sp & t & -> & Hsp & H).
  apply rm_abbr in H as (x & y & z & -> & Hx & Hy & Hz).
  rewrite rtail_app. apply fits_app.
  exists [z; y; x; sp], []. split; [reflexivity | fits_close].
Qed.

Lemma tail_sp_B (s1 : string) (f1 f2 : fields) :
  rm [FSpace; FMonFull] s1 f1 f2 EmptyString -> fits sh_B_sp (rtail s1).
Proof.
  intro H. apply rm_space_head in H as (p & sp & t & -> & Hsp & H).
  apply rm_full in H as [Hc Hl].
  rewrite rtail_app. apply fits_app. rewrite rtail_cons. unfold rtail.
  apply fits_B; [exact Hc | now rewrite length_list_ascii | exact Hsp].
Qed.

Lemma shape_dbY_dash (s : string) (dt : date) : strptime pat_dbY_dash s = Ok dt -> fits sh_Y4_dash (rtail s).
Proof. intro H. apply strptime_rm in H as [f H]. exact (pat_fits [FDay; FLit "-"; FMonAbbr] _ _ _ _ _ tail_dash_Y4 H). Qed.

Lemma shape_dby_dash (s : string) (dt : date) : strptime pat_dby_dash s = Ok dt -> fits sh_y2_dash (rtail s).
Proof. intro H. apply strptime_rm in H as [f H]. exact (pat_fits [FDay; FLit "-"; FMonAbbr] _ _ _ _ _ tail_dash_y2 H). Qed.

Lemma shape_db_dash (s : string) (dt : date) : strptime pat_db_dash s = Ok dt -> fits sh_b_dash (rtail s).
Proof. intro H. apply strptime_rm in H as [f H]. exact (pat_fits [FDay] _ _ _ _ _ tail_dash_b H). Qed.

Lemma shape_dbY_sp (s : string) (dt : date) : strptime pat_dbY_sp s = Ok dt -> fits sh_Y4_sp (rtail s).
Proof. intro H. apply strptime_rm in H as [f H]. exact (pat_fits [FDay; FSpace; FMonAbbr] _ _ _ _ _ tail_sp_Y4 H). Qed.

Lemma shape_dby_sp (s : string) (dt : date) : strptime pat_dby_sp s = Ok dt -> fits sh_y2_sp (rtail s).
Proof. intro H. apply strptime_rm in H as [f H]. exact (pat_fits [FDay; FSpace; FMonAbbr] _ _ _ _ _ tail_sp_y2 H). Qed.

Lemma shape_db_sp (s : string) (dt : date) : strptime pat_db_sp s = Ok dt -> fits sh_b_sp (rtail s).
Proof. intro H. apply strptime_rm in H as [f H]. exact (pat_fits [FDay] _ _ _ _ _ tail_sp_b H). Qed.

Lemma shape_dB_sp (s : string) (dt : date) : strptime pat_dB_sp s = Ok dt -> fits sh_B_sp (rtail s).
Proof. intro H. apply strptime_rm in H as [f H]. exact (pat_fits [FDay] _ _ _ _ _ tail_sp_B H). Qed.

(** *** Patterns that cannot both match *)

Lemma excl (sh1 sh2 : list (list nat)) (p2 : list fmt_item) (s : string) :
  fits sh1 (rtail s) -> (forall s dt, strptime p2 s = Ok dt -> fits sh2 (rtail s)) ->
  compatible sh1 sh2 = false -> exists e, strptime p2 s = Raise e.
Proof.
  intros F1 H2 Hc. destruct (strptime p2 s) as [dt'|e] eqn:E2; [|eauto].
  exfalso. exact (fits_clash sh1 sh2 s Hc F1 (H2 _ _ E2)).
Qed.

Lemma tp_skip (p : list fmt_item) (hy : bool) (pats : list (list fmt_item * bool)) (t : string)
  (today : date) (e : exn) :
  strptime p t = Raise e -> try_patterns ((p, hy) :: pats) t today = try_patterns pats t today.
Proof. intro E. simpl. now rewrite E. Qed.

Lemma tp_hit_year (p : list fmt_item) (pats : list (list fmt_item * bool)) (t : string)
  (today dt : date) :
  strptime p t = Ok dt -> try_patterns ((p, true) :: pats) t today = Some dt.
Proof. intro E. simpl. now rewrite E. Qed.

Lemma tp_hit_noyear (p : list fmt_item) (pats : list (list fmt_item * bool)) (t : string)
  (today dt d : date) :
  strptime p t = Ok dt -> replace_year dt (year today) = Ok d ->
  try_patterns ((p, false) :: pats) t today = Some d.
Proof. intros E R. simpl. now rewrite E, R. Qed.

Ltac skip_pat F shp :=
  let e := fresh "e" in let E := fresh "E" in
  destruct (excl _ _ _ _ F shp eq_refl) as [e E]; erewrite (tp_skip _ _ _ _ _ _ E).

Lemma pdf_from_try (s : string) (today d : date) :
  try_patterns date_patterns (strip s) today = Some d -> parse_date_flexible (Some s) today = Some d.
Proof.
  intro H. unfold parse_date_flexible. cbv zeta.
  destruct (String.eqb (strip s) "") eqn:E.
  - apply String.eqb_eq in E. rewrite E in H. vm_compute in H. discriminate.
  - now rewrite H.
Qed.

Lemma replace_fuel_no_match (fuel : nat) (old new s : string) :
  contains old s = false -> replace_fuel fuel old new s = s.
Proof.
  revert s. induction fuel as [|fuel IH]; intros s H; [reflexivity|].
  destruct s as [|c s]; [reflexivity|]. simpl in H |- *.
  apply orb_false_iff in H as [H1 H2]. rewrite H1. f_equal. now apply IH.
Qed.

Lemma replace_year_year (dt : date) (y : Z) (d : date) : replace_year dt y = Ok d -> year d = y.
Proof.
  unfold replace_year. destruct (valid_date y (month dt) (day dt)); [|discriminate].
  intro H. injection H as <-. reflexivity.
Qed.

(** *** "%d %b" and "%d %B" on a string ending in a space and "May" *)

Lemma first_some_none {A B} (g : A -> option B) (l : list A) :
  first_some g l = None <-> forall a, In a l -> g a = None.
Proof.
  induction l as [|a l IH]; simpl; [split; [contradiction | reflexivity]|].
  destruct (g a) eqn:E; split.
  - discriminate.
  - intro H. rewrite (H a (or_introl eq_refl)) in E. discriminate.
  - intros H b [<-|Hb]; [exact E | now apply IH].
  - intro H. apply IH. auto.
Qed.

Lemma rmatch_none_fields (its : list fmt_item) (s : string) (f f' : fields) :
  rmatch its s f = None -> rmatch its s f' = None.
Proof.
  revert s f f'. induction its as [|it its IH]; intros s f f' H; simpl in *; [discriminate|].
  rewrite first_some_none in H |- *. intros [u r] Hin. apply (IH r (u f)). exact (H _ Hin).
Qed.

Lemma first_some_sync {A B C} (g1 : A -> option B) (g2 : A -> option C) (l : list A) (x1 : B) (x2 : C) :
  (forall a b, In a l -> In b l -> g1 a <> None -> g2 b <> None -> g1 b <> None /\ g2 a <> None) ->
  first_some g1 l = Some x1 -> first_some g2 l = Some x2 ->
  exists a, In a l /\ g1 a = Some x1 /\ g2 a = Some x2.
Proof.
  induction l as [|a l IH]; intros Hx H1 H2; simpl in *; [discriminate|].
  destruct (g1 a) as [y1|] eqn:E1, (g2 a) as [y2|] eqn:E2.
  - injection H1 as <-. injection H2 as <-. exists a. auto.
  - apply first_some_in in H2 as (b & Hb & Gb).
    exfalso. assert (Ha : g2 a <> None).
    { refine (proj2 (Hx a b (or_introl eq_refl) (or_intror Hb) _ _)); intro X; congruence. }
    congruence.
  - apply first_some_in in H1 as (b & Hb & Gb).
    exfalso. assert (Ha : g1 a <> None).
    { refine (proj1 (Hx b a (or_intror Hb) (or_introl eq_refl) _ _)); intro X; congruence. }
    congruence.
  - destruct (IH (fun a b Ha Hb => Hx a b (or_intror Ha) (or_intror Hb)) H1 H2) as (b & Hb & G1 & G2).
    exists b. auto.
Qed.

Lemma space_lower (c : ascii) : is_space c = true -> lower_char c = c /\ is_alpha c = false /\ is_digit c = false.
Proof. destruct c as [[] [] [] [] [] [] [] []]; vm_compute; intro H; first [discriminate H | repeat split]. Qed.

Lemma month_alts_space (names : list (string * Z)) (c : ascii) (t : string) :
  alpha_names names = true -> is_space c = true -> month_alts names (String c t) = [].
Proof.
  intros Hn Hc. destruct (space_lower c Hc) as [Hl [Ha _]]. revert Hn.
  unfold month_alts, alpha_names. induction names as [|[nm i] names IH]; intro Hn; [reflexivity|].
  cbn [forallb flat_map] in Hn |- *. apply andb_prop in Hn as [H1 Hn].
  rewrite (IH Hn), app_nil_r.
  destruct nm as [|a nm]; [simpl in H1; discriminate|].
  cbn [starts_with lower]. rewrite Hl.
  cbn [list_ascii_of_string forallb] in H1. apply andb_prop in H1 as [H1 _]. apply andb_prop in H1 as [Hal _].
  destruct (Ascii.eqb a c) eqn:E; [|reflexivity].
  apply Ascii.eqb_eq in E. subst a. congruence.
Qed.

Lemma rmatch_mon_some (names : list (string * Z)) (it : fmt_item) (t : string) (f : fields) :
  fmt_alts it t = month_alts names t -> alpha_names names = true ->
  rmatch [it] t f <> None -> ws_prefix_len t = 0.
Proof.
  intros Hit Hn H. destruct t as [|c t]; [reflexivity|]. simpl.
  destruct (is_space c) eqn:Ec; [|reflexivity].
  exfalso. apply H. simpl. rewrite Hit, (month_alts_space names c t Hn Ec). reflexivity.
Qed.

Lemma ws_alts_greedy (s : string) (u : fields -> fields) (t : string) :
  In (u, t) (ws_alts_from (ws_prefix_len s) s) -> ws_prefix_len t = 0 -> t = sdrop (ws_prefix_len s) s.
Proof.
  intros H Ht. apply ws_alts_in in H as [_ (k & Hk & ->)].
  destruct (Nat.eq_dec k (ws_prefix_len s)) as [->|Hne]; [reflexivity|].
  destruct (ws_inside k s) as (c & t' & E & Hc); [lia|]. rewrite E in Ht. simpl in Ht. rewrite Hc in Ht. discriminate.
Qed.

Lemma abbr_full_same (nm : string) (i j : Z) : In (nm, i) abbr_months -> In (nm, j) full_months -> i = j.
Proof.
  intros H1 H2. simpl in H1, H2.
  repeat destruct H1 as [H1|H1]; try contradiction; injection H1 as <- <-;
    repeat destruct H2 as [H2|H2]; try contradiction; inversion H2; subst; reflexivity.
Qed.

Lemma mon_leaf (t : string) (f f1 f2 : fields) :
  rmatch [FMonAbbr] t f = Some (f1, EmptyString) -> rmatch [FMonFull] t f = Some (f2, EmptyString) -> f1 = f2.
Proof.
  intros H1 H2. cbn [rmatch fmt_alts] in H1, H2.
  apply first_some_in in H1 as ([u1 r1] & In1 & E1). apply first_some_in in H2 as ([u2 r2] & In2 & E2).
  injection E1 as <- ->. injection E2 as <- ->.
  apply month_alts_full in In1 as (nm1 & i1 & Hin1 & L1 & -> & _); [|reflexivity].
  apply month_alts_full in In2 as (nm2 & i2 & Hin2 & L2 & -> & _); [|reflexivity].
  rewrite L1 in L2. subst nm2. rewrite (abbr_full_same nm1 i1 i2 Hin1 Hin2). reflexivity.
Qed.

Lemma sp_mon_same (r : string) (f f1 f2 : fields) :
  rmatch [FSpace; FMonAbbr] r f = Some (f1, EmptyString) ->
  rmatch [FSpace; FMonFull] r f = Some (f2, EmptyString) -> f1 = f2.
Proof.
  intros H1 H2.
  change (rmatch [FSpace; FMonAbbr] r f) with
    (first_some (fun '(u, t) => rmatch [FMonAbbr] t (u f)) (ws_alts_from (ws_prefix_len r) r)) in H1.
  change (rmatch [FSpace; FMonFull] r f) with
    (first_some (fun '(u, t) => rmatch [FMonFull] t (u f)) (ws_alts_from (ws_prefix_len r) r)) in H2.
  refine (match first_some_sync _ _ _ _ _ _ H1 H2 with
          | ex_intro _ (u, t) (conj Hin (conj G1 G2)) => _ end).
  - intros [u t] [u' t'] Ha Hb G1 G2. cbv beta iota in G1, G2 |- *.
    destruct (ws_alts_in _ _ _ _ Ha) as [Hu _]. destruct (ws_alts_in _ _ _ _ Hb) as [Hu' _].
    rewrite Hu in G1 |- *. rewrite Hu' in G2 |- *.
    assert (T1 := ws_alts_greedy _ _ _ Ha (rmatch_mon_some abbr_months FMonAbbr t f eq_refl eq_refl G1)).
    assert (T2 := ws_alts_greedy _ _ _ Hb (rmatch_mon_some full_months FMonFull t' f eq_refl eq_refl G2)).
    subst t t'. auto.
  - cbv beta iota in G1, G2. destruct (ws_alts_in _ _ _ _ Hin) as [Hu _]. rewrite Hu in G1, G2.
    exact (mon_leaf t f f1 f2 G1 G2).
Qed.

Lemma in_range_digit (c : ascii) (lo hi : nat) :
  48 <= lo -> hi <= 57 -> in_range c lo hi = true -> is_digit c = true.
Proof.
  unfold in_range, is_digit. intros Hlo Hhi H. apply andb_prop in H as [H1 H2].
  apply Nat.leb_le in H1, H2. apply andb_true_intro. split; apply Nat.leb_le; lia.
Qed.

Lemma day_alts_rest (c1 c2 : ascii) (s2 : string) (u : fields -> fields) (r : string) :
  In (u, r) (day_alts (String c1 (String c2 s2))) -> (r = s2 /\ is_digit c2 = true) \/ r = String c2 s2.
Proof.
  unfold day_alts. cbv beta iota. intro H.
  repeat (rewrite in_app_iff in H || match goal with
          | H : In _ (if ?b then _ else _) |- _ => let E := fresh "E" in destruct b eqn:E
          | H : _ \/ _ |- _ => destruct H as [H|H]
          | H : In _ [] |- _ => destruct H
          | H : In _ [_] |- _ => destruct H as [H|[]]
          end);
  injection H as _ <-;
  first [ right; reflexivity
        | left; split; [reflexivity|];
          repeat match goal with E : _ && _ = true |- _ => apply andb_prop in E as [? ?] end;
          first [ assumption | eapply in_range_digit; [| |eassumption]; lia ] ].
Qed.

Lemma day_same_rest (s : string) (u u' : fields -> fields) (r r' : string) :
  In (u, r) (day_alts s) -> In (u', r') (day_alts s) -> 1 <= ws_prefix_len r -> 1 <= ws_prefix_len r' -> r = r'.
Proof.
  destruct s as [|c1 [|c2 s2]]; intros H1 H2 W1 W2.
  - contradiction.
  - simpl in H1. destruct (in_range c1 49 57); simpl in H1; [|contradiction].
    destruct H1 as [H1|[]]. injection H1 as _ <-. simpl in W1. lia.
  - assert (Sp : forall r0, r0 = String c2 s2 -> 1 <= ws_prefix_len r0 -> is_digit c2 = false).
    { intros r0 -> W. simpl in W. destruct (is_space c2) eqn:E; [|lia]. apply (space_lower c2 E). }
    apply day_alts_rest in H1 as [[-> D1]| ->]; apply day_alts_rest in H2 as [[-> D2]| ->]; auto.
    + rewrite (Sp _ eq_refl W2) in D1. discriminate.
    + rewrite (Sp _ eq_refl W1) in D2. discriminate.
Qed.

Lemma may_same (s : string) (f1 f2 : fields) :
  rmatch pat_db_sp s no_fields = Some (f1, EmptyString) ->
  rmatch pat_dB_sp s no_fields = Some (f2, EmptyString) -> f1 = f2.
Proof.
  intros H1 H2.
  change (rmatch pat_db_sp s no_fields) with
    (first_some (fun '(u, r) => rmatch [FSpace; FMonAbbr] r (u no_fields)) (day_alts s)) in H1.
  change (rmatch pat_dB_sp s no_fields) with
    (first_some (fun '(u, r) => rmatch [FSpace; FMonFull] r (u no_fields)) (day_alts s)) in H2.
  refine (match first_some_sync _ _ _ _ _ _ H1 H2 with
          | ex_intro _ (u, r) (conj _ (conj G1 G2)) => _ end).
  - intros [u r] [u' r'] Ha Hb G1 G2. cbv beta iota in G1, G2 |- *.
    assert (W : forall it r0 f, rmatch [FSpace; it] r0 f <> None -> 1 <= ws_prefix_len r0).
    { intros it r0 f G. destruct (ws_prefix_len r0) eqn:E; [|lia]. exfalso. apply G.
      cbn [rmatch fmt_alts]. rewrite E. reflexivity. }
    pose proof (day_same_rest s u u' r r' Ha Hb (W _ _ _ G1) (W _ _ _ G2)) as ->.
    split; intro N; [apply G1 | apply G2]; eapply rmatch_none_fields; exact N.
  - cbv beta iota in G1, G2. exact (sp_mon_same r (u no_fields) f1 f2 G1 G2).
Qed.

Lemma strptime_db_dB (s : string) (dt1 dt2 : date) :
  strptime pat_db_sp s = Ok dt1 -> strptime pat_dB_sp s = Ok dt2 -> dt1 = dt2.
Proof.
  unfold strptime.
  destruct (rmatch pat_db_sp s no_fields) as [[f1 r1]|] eqn:E1; [|discriminate].
  destruct (rmatch pat_dB_sp s no_fields) as [[f2 r2]|] eqn:E2; [|discriminate].
  destruct (String.eqb r1 "") eqn:R1; [|discriminate]. destruct (String.eqb r2 "") eqn:R2; [|discriminate].
  apply String.eqb_eq in R1, R2. subst r1 r2.
  rewrite (may_same s f1 f2 E1 E2). intros H1 H2. rewrite H1 in H2. injection H2. auto.
Qed.

(** *** Year-less results *)

Lemma rm_Y4_val (t : string) (f f' : fields) : rm [FYear4] t f f' EmptyString ->
  exists a b c d, t = String a (String b (String c (String d EmptyString))) /\
    cls a = 0 /\ cls b = 0 /\ cls c = 0 /\ cls d = 0 /\ f' = set_year (digits_value t) f.
Proof.
  intro H. apply rm_cons_inv in H as (u & r & H1 & H). apply rm_nil_inv in H as [-> <-].
  cbn [fmt_alts] in H1.
  destruct t as [|a [|b [|c [|d r]]]]; try contradiction.
  destruct (is_digit a && is_digit b && is_digit c && is_digit d) eqn:E; [|contradiction].
  destruct H1 as [H1|[]]. injection H1 as <- ->.
  repeat rewrite andb_true_iff in E. destruct E as [[[Ea Eb] Ec] Ed].
  exists a, b, c, d. split; [reflexivity|].
  repeat split; try reflexivity; apply cls_digit; assumption.
Qed.

Lemma dbY_sp_year (s : string) (d : date) : strptime pat_dbY_sp s = Ok d ->
  exists P sp a b c e,
    s = (P ++ String sp (String a (String b (String c (String e EmptyString)))))%string /\
    cls sp = 1 /\ cls a = 0 /\ cls b = 0 /\ cls c = 0 /\ cls e = 0 /\
    year d = digits_value (String a (String b (String c (String e EmptyString)))).
Proof.
  unfold strptime. destruct (rmatch pat_dbY_sp s no_fields) as [[f r]|] eqn:E; [|discriminate].
  destruct (String.eqb r "") eqn:R; [|discriminate]. apply String.eqb_eq in R. subst r.
  apply rmatch_rm in E.
  change pat_dbY_sp with ([FDay; FSpace; FMonAbbr] ++ [FSpace; FYear4]) in E.
  apply rm_app in E as (f1 & s1 & E1 & E2). destruct (rm_suffix _ _ _ _ _ E1) as [p0 ->].
  apply rm_space_head in E2 as (p1 & sp & t & -> & Hsp & E2).
  apply rm_Y4_val in E2 as (a & b & c & e & -> & Ha & Hb & Hc & He & ->).
  cbv zeta. intro H. exists (p0 ++ p1)%string, sp, a, b, c, e.
  split; [now rewrite string_app_assoc|].
  repeat split; try assumption.
  destruct (valid_date _ _ _); [|discriminate]. injection H as <-. reflexivity.
Qed.

Lemma ystr_check_ok (y : Z) : (1 <= y <= 9999)%Z -> ystr_check y = true.
Proof.
  intro Hy.
  assert (A : forallb (fun n => ystr_check (Z.of_nat n)) (seq 1 (Z.to_nat 9999)) = true) by (vm_compute; reflexivity).
  rewrite forallb_forall in A. rewrite <- (Z2Nat.id y) by lia. apply A. apply in_seq. lia.
Qed.

Lemma fallback_year (x : string) (y : Z) (d : date) : ystr_check y = true ->
  strptime pat_dbY_sp (x ++ " " ++ z_to_str y) = Ok d -> year d = y.
Proof.
  intros Hy H. apply dbY_sp_year in H as (P & sp & a & b & c & e & E & Hsp & Ha & Hb & Hc & He & ->).
  unfold ystr_check in Hy. remember (z_to_str y) as ys eqn:Hys. clear Hys.
  assert (R := f_equal rtail E). rewrite !rtail_app in R.
  destruct ys as [|y1 [|y2 [|y3 [|y4 [|y5 ys]]]]]; simpl in Hy; try discriminate;
    unfold rtail in R; simpl in R; injection R; intros; subst;
    repeat match goal with H : cls " "%char = 0 |- _ => vm_compute in H; discriminate H end.
  apply andb_prop in Hy as [_ Hy]. apply Z.eqb_eq in Hy. exact Hy.
Qed.

Lemma tp_year (pats : list (list fmt_item * bool)) (t : string) (today d : date) :
  (forall p, In (p, true) pats -> exists e, strptime p t = Raise e) ->
  try_patterns pats t today = Some d -> year d = year today.
Proof.
  induction pats as [|[p hy] pats IH]; intros Hy H; cbn [try_patterns] in H; [discriminate|].
  destruct (strptime p t) as [dt|e] eqn:E.
  - destruct hy.
    + destruct (Hy p (or_introl eq_refl)) as [e He]. congruence.
    + destruct (replace_year dt (year today)) as [d'|e] eqn:R.
      * injection H as <-. exact (replace_year_year _ _ _ R).
      * apply IH; [intros; apply Hy; right; auto | exact H].
  - apply IH; [intros; apply Hy; right; auto | exact H].
Qed.

Lemma pdf_noyear (s : string) (today d : date) :
  (1 <= year today <= 9999)%Z ->
  (forall p, In p year_patterns -> exists e, strptime p (strip s) = Raise e) ->
  parse_date_flexible (Some s) today = Some d -> year d = year today.
Proof.
  intros Hy Hp. unfold parse_date_flexible. cbv zeta.
  destruct (String.eqb (strip s) ""); [intro H; discriminate H|].
  destruct (try_patterns date_patterns (strip s) today) as [d0|] eqn:T.
  - intro H. injection H as <-. apply (tp_year date_patterns (strip s)); [|exact T].
    intros p Hin. apply Hp. cbn [date_patterns In] in Hin.
    unfold year_patterns. cbn [In].
    destruct Hin as [H|[H|[H|[H|[H|[H|[]]]]]]]; inversion H; subst; auto.
  - match goal with |- context [bind ?x ?k] => destruct (bind x k) as [d1|e1] eqn:B end.
    + intro H. injection H as <-.
      match type of B with context [strptime pat_dB_sp ?x] => destruct (strptime pat_dB_sp x) eqn:S end;
        cbn [bind] in B; [exact (replace_year_year _ _ _ B) | discriminate].
    + destruct (day_month_search (strip s)) as [[g1 mon]|]; [|intro H; discriminate H].
      match goal with |- context [strptime pat_dbY_sp ?x] => destruct (strptime pat_dbY_sp x) as [d2|e2] eqn:S end;
        [|intro H; discriminate H].
      intro H. injection H as <-.
      apply (fallback_year (z_to_str (digits_value g1) ++ " " ++ mon)); [now apply ystr_check_ok|].
      rewrite <- S. f_equal. now rewrite !string_app_assoc.
Qed.

(** *** The explicit patterns *)

Lemma pdf_year_pat (s : string) (today : date) (p : list fmt_item) (dt : date) :
  In p year_patterns -> strptime p (strip s) = Ok dt -> parse_date_flexible (Some s) today = Some dt.
Proof.
  intros Hp H. apply pdf_from_try. unfold date_patterns.
  unfold year_patterns in Hp. cbn [In] in Hp.
  destruct Hp as [<-|[<-|[<-|[<-|[]]]]].
  - apply tp_hit_year. exact H.
  - pose proof (shape_dby_dash _ _ H) as F.
    skip_pat F shape_dbY_dash. apply tp_hit_year. exact H.
  - pose proof (shape_dbY_sp _ _ H) as F.
    skip_pat F shape_dbY_dash. skip_pat F shape_dby_dash. skip_pat F shape_db_dash.
    apply tp_hit_year. exact H.
  - pose proof (shape_dby_sp _ _ H) as F.
    skip_pat F shape_dbY_dash. skip_pat F shape_dby_dash. skip_pat F shape_db_dash.
    skip_pat F shape_dbY_sp. apply tp_hit_year. exact H.
Qed.

Lemma pdf_noyear_pat (s : string) (today : date) (p : list fmt_item) (dt d : date) :
  In p [pat_db_dash; pat_db_sp] -> strptime p (strip s) = Ok dt -> replace_year dt (year today) = Ok d ->
  parse_date_flexible (Some s) today = Some d.
Proof.
  intros Hp H R. apply pdf_from_try. unfold date_patterns. cbn [In] in Hp.
  destruct Hp as [<-|[<-|[]]].
  - pose proof (shape_db_dash _ _ H) as F. skip_pat F shape_dbY_dash. skip_pat F shape_dby_dash.
    exact (tp_hit_noyear _ _ _ _ _ _ H R).
  - pose proof (shape_db_sp _ _ H) as F. skip_pat F shape_dbY_dash. skip_pat F shape_dby_dash.
    skip_pat F shape_db_dash. skip_pat F shape_dbY_sp. skip_pat F shape_dby_sp.
    exact (tp_hit_noyear _ _ _ _ _ _ H R).
Qed.

Lemma pdf_full_month (s : string) (today dt d : date) :
  strip s = s -> contains "," s = false -> strptime pat_dB_sp s = Ok dt ->
  replace_year dt (year today) = Ok d -> parse_date_flexible (Some s) today = Some d.
Proof.
  intros Hs Hc H R. pose proof (shape_dB_sp _ _ H) as F.
  destruct (strptime pat_db_sp s) as [dt'|e'] eqn:E.
  - rewrite (strptime_db_dB s dt' dt E H) in E. apply pdf_from_try. rewrite Hs. unfold date_patterns.
    skip_pat F shape_dbY_dash. skip_pat F shape_dby_dash. skip_pat F shape_db_dash.
    skip_pat F shape_dbY_sp. skip_pat F shape_dby_sp.
    exact (tp_hit_noyear _ _ _ _ _ _ E R).
  - unfold parse_date_flexible. cbv zeta. rewrite Hs.
    destruct (String.eqb s "") eqn:Es.
    { apply String.eqb_eq in Es. subst s. vm_compute in H. discriminate. }
    assert (T : try_patterns date_patterns s today = None).
    { unfold date_patterns.
      skip_pat F shape_dbY_dash. skip_pat F shape_dby_dash. skip_pat F shape_db_dash.
      skip_pat F shape_dbY_sp. skip_pat F shape_dby_sp. rewrite (tp_skip _ _ _ _ _ _ E). reflexivity. }
    rewrite T. unfold replace. rewrite replace_fuel_no_match by exact Hc. rewrite Hs, H.
    cbn [bind]. rewrite R. reflexivity.
Qed.

(** C6 (parse_date_flexible): a string whose stripped form fully matches
    one of the patterns with a year ("%d-%b-%Y", "%d-%b-%y", "%d %b %Y",
    "%d %b %y") is parsed to exactly the date that pattern gives, whatever
    patterns come first; one that fully matches "%d-%b" or "%d %b" (or,
    stripped and without commas, "%d %B") gives that day and month in the
    year of [today]; when no pattern with a year matches, every date
    returned (by the year-less patterns, "%d %B" or the regular-expression
    fallback) has the year of [today]; and failure is [None], not an
    exception. *)
Theorem parse_date_flexible_spec :
  (forall s today p dt, In p year_patterns -> strptime p (strip s) = Ok dt ->
     parse_date_flexible (Some s) today = Some dt) /\
  (forall s today p dt d, In p [pat_db_dash; pat_db_sp] -> strptime p (strip s) = Ok dt ->
     replace_year dt (year today) = Ok d -> parse_date_flexible (Some s) today = Some d) /\
  (forall s today dt d, strip s = s -> contains "," s = false -> strptime pat_dB_sp s = Ok dt ->
     replace_year dt (year today) = Ok d -> parse_date_flexible (Some s) today = Some d) /\
  (forall s today d, (1 <= year today <= 9999)%Z ->
     (forall p, In p year_patterns -> exists e, strptime p (strip s) = Raise e) ->
     parse_date_flexible (Some s) today = Some d -> year d = year today) /\
  parse_date_flexible (Some "TBA"%string) d2025_01_01 = None.
Proof.
  split; [exact pdf_year_pat|]. split; [exact pdf_noyear_pat|]. split; [exact pdf_full_month|].
  split; [exact pdf_noyear|]. vm_compute. reflexivity.
Qed.

Lemma parse_date_flexible_spec_witness :
  parse_date_flexible (Some "12-Oct-2025"%string) d2025_01_01 = Some (mkdate 2025 10 12) /\
  parse_date_flexible (Some "15-Mar"%string) d2025_01_01 = Some (mkdate 2025 3 15) /\
  parse_date_flexible (Some "5 September"%string) d2025_01_01 = Some (mkdate 2025 9 5) /\
  year (mkdate 2025 3 15) = year d2025_01_01.
Proof.
  destruct parse_date_flexible_spec as (P1 & P2 & P3 & P4 & _).
  split; [|split; [|split]].
  - apply (P1 _ _ pat_dbY_dash); [simpl; auto | vm_compute; reflexivity].
  - apply (P2 _ _ pat_db_dash (mkdate 1900 3 15)); [simpl; auto | vm_compute; reflexivity | vm_compute; reflexivity].
  - apply (P3 _ _ (mkdate 1900 9 5)); vm_compute; reflexivity.
  - apply (P4 "15 Mar"%string); [unfold d2025_01_01; simpl; lia | | vm_compute; reflexivity].
    intros p Hp. simpl in Hp. destruct Hp as [<-|[<-|[<-|[<-|[]]]]]; eexists; vm_compute; reflexivity.
Defined.

(** ** Extra properties: trimming and the name cleaning *)

Lemma sol_app (a b : list ascii) :
  string_of_list_ascii (a ++ b) = (string_of_list_ascii a ++ string_of_list_ascii b)%string.
Proof. induction a as [|c a IH]; simpl; [reflexivity | now rewrite IH]. Qed.

Lemma string_app_nil (s : string) : (s ++ "")%string = s.
Proof. induction s as [|c s IH]; simpl; [reflexivity | now rewrite IH]. Qed.

Lemma loas_inj (s t : string) : list_ascii_of_string s = list_ascii_of_string t -> s = t.
Proof.
  intro H. rewrite <- (string_of_list_ascii_of_string s), <- (string_of_list_ascii_of_string t).
  now rewrite H.
Qed.

Lemma lstrip_list (s : string) : list_ascii_of_string (lstrip s) = drop_ws_list (list_ascii_of_string s).
Proof.
  induction s as [|c s IH]; simpl; [reflexivity|]. destruct (is_space c); [exact IH | reflexivity].
Qed.

Lemma rev_str_list (s acc : string) :
  rev_str s acc = (string_of_list_ascii (rev (list_ascii_of_string s)) ++ acc)%string.
Proof.
  revert acc. induction s as [|c s IH]; intro acc; simpl; [reflexivity|].
  rewrite IH, sol_app, string_app_assoc. reflexivity.
Qed.

Lemma rstrip_list (s : string) :
  list_ascii_of_string (rstrip s) = rev (drop_ws_list (rev (list_ascii_of_string s))).
Proof.
  unfold rstrip. rewrite rev_str_list, string_app_nil, list_ascii_of_string_of_list_ascii.
  rewrite lstrip_list, rev_str_list, string_app_nil, list_ascii_of_string_of_list_ascii. reflexivity.
Qed.

Lemma dw_ws_prefix (w u : list ascii) : all_ws w = true -> drop_ws_list (w ++ u) = drop_ws_list u.
Proof.
  induction w as [|c w IH]; simpl; [reflexivity|]. intro H. apply andb_true_iff in H as [H1 H2].
  rewrite H1. exact (IH H2).
Qed.

Lemma dw_nonws (c : ascii) (u : list ascii) : is_space c = false -> drop_ws_list (c :: u) = c :: u.
Proof. simpl. intro H. now rewrite H. Qed.

Lemma all_ws_app (a b : list ascii) : all_ws (a ++ b) = all_ws a && all_ws b.
Proof. unfold all_ws. apply forallb_app. Qed.

Lemma all_ws_rev (a : list ascii) : all_ws (rev a) = all_ws a.
Proof.
  induction a as [|c a IH]; simpl; [reflexivity|]. rewrite all_ws_app, IH. simpl.
  now rewrite andb_true_r, andb_comm.
Qed.

Lemma dw_all_ws (w : list ascii) : all_ws w = true -> drop_ws_list w = [].
Proof. intro H. rewrite <- (app_nil_r w), dw_ws_prefix by exact H. reflexivity. Qed.

Lemma rtrim_ws_suffix (u w : list ascii) : all_ws w = true -> rtrim (u ++ w) = rtrim u.
Proof.
  intro H. unfold rtrim. rewrite rev_app_distr, dw_ws_prefix; [reflexivity|]. now rewrite all_ws_rev.
Qed.

Lemma rtrim_nonws (u : list ascii) (x : ascii) : is_space x = false -> rtrim (u ++ [x]) = u ++ [x].
Proof.
  intro H. unfold rtrim. rewrite rev_app_distr. cbn [rev app]. rewrite dw_nonws by exact H.
  change (x :: rev u) with (rev [x] ++ rev u). now rewrite <- rev_app_distr, rev_involutive.
Qed.

Lemma last_app_cons {A} (l m : list A) (x d : A) : last (l ++ x :: m) d = last (x :: m) d.
Proof.
  induction l as [|y l IH]; [reflexivity|]. rewrite <- app_comm_cons.
  change (last (y :: l ++ x :: m) d) with
    (match l ++ x :: m with [] => y | _ => last (l ++ x :: m) d end).
  destruct l; simpl in *; [reflexivity | exact IH].
Qed.

Lemma ws_decomp (l : list ascii) :
  exists w1 m w2, l = w1 ++ m ++ w2 /\ all_ws w1 = true /\ all_ws w2 = true /\ core m.
Proof.
  induction l as [|c l IH].
  - exists [], [], []. repeat split; auto. left; reflexivity.
  - destruct IH as (w1 & m & w2 & -> & H1 & H2 & Hm).
    destruct (is_space c) eqn:Ec.
    + exists (c :: w1), m, w2. simpl. rewrite Ec, H1. auto.
    + destruct Hm as [-> | [Hh Hl]].
      * exists [], [c], (w1 ++ w2). simpl. split; [reflexivity|]. rewrite all_ws_app, H1, H2.
        split; [reflexivity|]. split; [reflexivity|]. right. simpl. auto.
      * exists [], (c :: w1 ++ m), w2. split; [simpl; now rewrite app_assoc|].
        split; [reflexivity|]. split; [exact H2|]. right. split; [exact Ec|].
        destruct m as [|x m]; [discriminate|].
        change (c :: w1 ++ x :: m) with ((c :: w1) ++ x :: m).
        rewrite last_app_cons. exact Hl.
Qed.

Lemma trim_core (w1 m w2 : list ascii) :
  all_ws w1 = true -> all_ws w2 = true -> core m ->
  rtrim (drop_ws_list (w1 ++ m ++ w2)) = m /\
  rtrim (drop_ws_list (rtrim (w1 ++ m ++ w2))) = m.
Proof.
  intros H1 H2 [-> | [Hh Hl]].
  - simpl. assert (Hw : all_ws (w1 ++ w2) = true) by (rewrite all_ws_app, H1; exact H2).
    rewrite (dw_all_ws _ Hw). rewrite <- (app_nil_l (w1 ++ w2)), rtrim_ws_suffix by exact Hw.
    split; reflexivity.
  - destruct m as [|x m0]; [simpl in Hh; discriminate|].
    assert (Em : x :: m0 = removelast (x :: m0) ++ [last (x :: m0) " "%char])
      by (apply app_removelast_last; discriminate).
    simpl in Hh. remember (x :: m0) as m eqn:Hxm.
    assert (Hdm : drop_ws_list m = m) by (rewrite Hxm; apply dw_nonws, Hh).
    assert (Hdm2 : forall v, drop_ws_list (m ++ v) = m ++ v) by (intro v; rewrite Hxm; apply dw_nonws, Hh).
    assert (Hrm : rtrim m = m) by (rewrite Em at 1 2; apply rtrim_nonws, Hl).
    split.
    + rewrite dw_ws_prefix, Hdm2, rtrim_ws_suffix by assumption. exact Hrm.
    + rewrite app_assoc, rtrim_ws_suffix by assumption.
      rewrite Em, app_assoc, rtrim_nonws by exact Hl.
      rewrite <- app_assoc, <- Em, dw_ws_prefix, Hdm by assumption. exact Hrm.
Qed.

Lemma strip_list (s : string) :
  list_ascii_of_string (strip s) = rtrim (drop_ws_list (list_ascii_of_string s)).
Proof. unfold strip. now rewrite rstrip_list, lstrip_list. Qed.

Lemma strip_rstrip (s : string) : strip (rstrip s) = strip s.
Proof.
  apply loas_inj. rewrite !strip_list, rstrip_list.
  destruct (ws_decomp (list_ascii_of_string s)) as (w1 & m & w2 & E & H1 & H2 & Hm). rewrite E.
  destruct (trim_core w1 m w2 H1 H2 Hm) as (A & B). fold (rtrim (w1 ++ m ++ w2)). now rewrite A, B.
Qed.

(** A string that neither starts nor ends with whitespace is its own [strip]. *)
Lemma strip_id (s : string) :
  core (list_ascii_of_string s) -> strip s = s.
Proof.
  intro Hm. apply loas_inj. rewrite strip_list.
  destruct (trim_core [] (list_ascii_of_string s) [] eq_refl eq_refl Hm) as (A & _).
  rewrite app_nil_r in A. exact A.
Qed.

Lemma rstrip_rtrim (s : string) : rstrip s = string_of_list_ascii (rtrim (list_ascii_of_string s)).
Proof. apply loas_inj. now rewrite rstrip_list, list_ascii_of_string_of_list_ascii. Qed.

(** The name cleaning of [normalize_df] ([astype(str)], the
    substitution of [\s*U$], then [strip]): a final "U" is removed with
    all the whitespace before it, and the name is then stripped; a name
    whose last character is neither "U" nor a newline is only stripped. *)
Theorem clean_name_trailing_U :
  (forall s, clean_name (Some (s ++ "U")%string) = strip s) /\
  (forall s c, c <> "U"%char -> c <> "010"%char ->
     clean_name (Some (s ++ String c "")%string) = strip (s ++ String c "")).
Proof.
  split.
  - intro s. unfold clean_name, astype_str, sub_trailing_U.
    rewrite list_ascii_app. simpl (list_ascii_of_string "U"). rewrite rev_app_distr. simpl.
    fold (rtrim (list_ascii_of_string s)). rewrite <- rstrip_rtrim. apply strip_rstrip.
  - intros s c Hu Hn. unfold clean_name, astype_str, sub_trailing_U.
    rewrite list_ascii_app. simpl (list_ascii_of_string (String c "")). rewrite rev_app_distr. simpl.
    destruct (Ascii.eqb c "U") eqn:E1; [apply Ascii.eqb_eq in E1; contradiction|].
    destruct (Ascii.eqb c "010") eqn:E2; [apply Ascii.eqb_eq in E2; contradiction|]. reflexivity.
Qed.

Lemma clean_name_trailing_U_witness :
  clean_name (Some ("Tata Tech  " ++ "U")%string) = "Tata Tech"%string /\
  ("x"%char <> "U"%char /\ "x"%char <> "010"%char /\
   clean_name (Some (" Alpha Ltd" ++ String "x" "")%string) = strip (" Alpha Ltd" ++ String "x" "")).
Proof.
  split.
  - rewrite (proj1 clean_name_trailing_U "Tata Tech  "%string). vm_compute. reflexivity.
  - split; [discriminate|]. split; [discriminate|].
    apply (proj2 clean_name_trailing_U); discriminate.
Defined.
